(** * imagemagick-convert: the command builder and the conversion orchestrator

    A shallow embedding of [src/lib/convert.js] and the properties of its
    command-line composition and of its process handling.  The file holds
    two variants of the converter; the one embedded here is the first, whose
    option record carries [path] and [strip].  The second has neither, calls
    [getHandle] [createOccurrence] and [getArgs] [composeCommand], and is
    otherwise the same code. *)

From Stdlib Require Import ZArith Strings.String Strings.Ascii.
From Stdlib Require Import Numbers.DecimalString.
From stdpp Require Import gmap strings list fin_maps.

Open Scope string_scope.
Open Scope list_scope.

(** ** JavaScript values

    The option record holds arbitrary JavaScript values.  The model keeps the
    kinds the converter can tell apart: the code looks at a value's
    truthiness, at whether it is the number [0], at whether its type is
    boolean, at whether it is a [Buffer], and at its string conversion.
    A number is one of three kinds.  [Num n] is the integer [n]; it stands
    for a JavaScript number when [n] is a safe integer ([safe_integer]), the
    range in which a double holds every integer and its string conversion is
    the decimal digits of [n].  [NaN] is the number that is not a number.
    [Float text] is any other number: a value that is not an integer, or an
    integer beyond the safe range, or an infinity; such a number is never
    zero, and [text] is what its string conversion prints (the shortest
    digits that read back as the same double, in exponent notation from
    1e21 on).  Properties that speak of the digits of a number are stated
    for safe integers.  Strings are byte strings (the UTF-8 text of the
    JavaScript string), so that the string conversion of a [Buffer] holding
    well-formed UTF-8 is its bytes. *)
Module JS.

Inductive value : Type :=
| Undefined
| Null
| Bool (b : bool)
| Num (n : Z)
| Str (s : string)
| Buffer (bytes : list Byte.byte)
| Object (text : string)    (* any other object; [text] is its toString() *)
| NaN
| Float (text : string).    (* any other number; [text] is its toString() *)

(** [Number.isSafeInteger(n)]: the integers of magnitude below [2^53]. *)
Definition safe_integer (n : Z) : bool :=
  (Z.abs n <=? 9007199254740991)%Z.

(** ToBoolean. *)
Definition truthy (v : value) : bool :=
  match v with
  | Undefined | Null | NaN => false
  | Bool b => b
  | Num n => negb (n =? 0)%Z
  | Str s => negb (String.eqb s "")
  | Buffer _ | Object _ | Float _ => true
  end.

(** [v === 0]. *)
Definition is_zero (v : value) : bool :=
  match v with
  | Num n => (n =? 0)%Z
  | _ => false
  end.

(** [typeof v === 'boolean']. *)
Definition is_boolean (v : value) : bool :=
  match v with
  | Bool _ => true
  | _ => false
  end.

(** [v instanceof Buffer]. *)
Definition is_buffer (v : value) : bool :=
  match v with
  | Buffer _ => true
  | _ => false
  end.

(** ToString, as a template literal applies it.  The digits of [Num n] are
    those JavaScript prints when [n] is a safe integer. *)
Definition to_string (v : value) : string :=
  match v with
  | Undefined => "undefined"
  | Null => "null"
  | Bool true => "true"
  | Bool false => "false"
  | Num n => NilZero.string_of_int (Z.to_int n)
  | Str s => s
  | Buffer bytes => string_of_list_byte bytes
  | Object text => text
  | NaN => "NaN"
  | Float text => text
  end.

(** [a || b]. *)
Definition or (a b : value) : value := if truthy a then a else b.

(** A parameter declared [p = d]: the default is taken for [undefined]. *)
Definition param (d v : value) : value :=
  match v with
  | Undefined => d
  | _ => v
  end.

(** The string an element contributes to [Array.prototype.join]:
    [null] and [undefined] give the empty string. *)
Definition join_item (v : value) : string :=
  match v with
  | Undefined | Null => ""
  | _ => to_string v
  end.

(** [arr.join(sep)]. *)
Fixpoint join (sep : string) (arr : list value) : string :=
  match arr with
  | [] => ""
  | [v] => join_item v
  | v :: rest => join_item v +:+ sep +:+ join sep rest
  end.

Definition is_digit (c : ascii) : bool :=
  let n := nat_of_ascii c in (48 <=? n)%nat && (n <=? 57)%nat.

Fixpoint all_digits (s : string) : bool :=
  match s with
  | EmptyString => true
  | String c r => is_digit c && all_digits r
  end.

(** [s.replace(/\d*$/, '')]: the leftmost position from which the rest of
    the string is decimal digits only is where the match starts, and the
    match is removed. *)
Fixpoint strip_trailing_digits (s : string) : string :=
  match s with
  | EmptyString => EmptyString
  | String c r =>
      if all_digits s then EmptyString else String c (strip_trailing_digits r)
  end.

End JS.

(** ** Configuration model *)

(** [process.platform === 'win32' ? 'magick' : 'convert'] *)
Definition rootCmd (platform : string) : string :=
  if String.eqb platform "win32" then "magick" else "convert".

Definition RESIZE_DEFAULT : string := "crop".

(** The default option record, as the list of its entries. *)
Definition optionsDefaults_entries (platform : string)
  : list (string * JS.value) :=
  [ ("path", JS.Str (rootCmd platform));
    ("srcData", JS.Null);
    ("srcFormat", JS.Null);
    ("width", JS.Null);
    ("height", JS.Null);
    ("resize", JS.Str RESIZE_DEFAULT);
    ("density", JS.Num 600);
    ("background", JS.Str "none");
    ("gravity", JS.Str "Center");
    ("format", JS.Null);
    ("quality", JS.Num 75);
    ("blur", JS.Null);
    ("rotate", JS.Null);
    ("flip", JS.Bool false);
    ("alpha", JS.Null);
    ("clip", JS.Null);
    ("alpha2", JS.Null);
    ("strip", JS.Bool true) ].

Definition optionsDefaults (platform : string) : gmap string JS.value :=
  list_to_map (optionsDefaults_entries platform).

(** The fixed attribute set, in the order a [Set] iterates it (insertion
    order). *)
Definition attributesMap : list string :=
  [ "density"; "background"; "gravity"; "quality"; "blur"; "rotate";
    "flip"; "alpha"; "clip"; "alpha2"; "strip" ].

(** [new Converter(options)]: [{...optionsDefaults, ...options}], the
    caller's entry winning wherever the caller has the key. *)
Definition Converter (platform : string) (options : gmap string JS.value)
  : gmap string JS.value :=
  options ∪ optionsDefaults platform.

(** [this.options.get(key)]: a [Map] answers [undefined] for a missing key. *)
Definition get (opts : gmap string JS.value) (key : string) : JS.value :=
  default JS.Undefined (opts !! key).

(** ** Command builder *)

(** [getHandle (format = null, name = null)] *)
Definition getHandle (format name : JS.value) : string :=
  let format := JS.param JS.Null format in
  let name := JS.param JS.Null name in
  let occurrence := [] in
  let occurrence :=
    if JS.truthy format then occurrence ++ [format] else occurrence in
  let occurrence := occurrence ++ [JS.or name (JS.Str "-")] in
  JS.join ":" occurrence.

(** [geometryFactory ()] *)
Definition geometryFactory (opts : gmap string JS.value) : string :=
  let size := [] in
  let w := get opts "width" in
  let h := get opts "height" in
  let size :=
    size ++ [if JS.truthy w || JS.is_zero w then w else JS.Str ""] in
  let size :=
    if JS.truthy h || JS.is_zero h then size ++ [h] else size in
  JS.join "x" size.

(** The three presets of [resizeFactory], keyed by mode name. *)
Definition resizeMap (geometry : string) : list (string * string) :=
  [ ("fit", "-resize " +:+ geometry);
    ("fill", "-resize " +:+ geometry +:+ "!");
    ("crop", "-resize " +:+ geometry +:+ "^ -crop " +:+ geometry +:+ "+0+0!") ].

(** [resizeMap.get(key)]: only a string can equal one of the string keys;
    a miss is [undefined]. *)
Definition resizeMap_get (geometry : string) (key : JS.value) : JS.value :=
  match key with
  | JS.Str k =>
      match List.find (fun e => String.eqb (fst e) k) (resizeMap geometry) with
      | Some e => JS.Str (snd e)
      | None => JS.Undefined
      end
  | _ => JS.Undefined
  end.

(** [resizeFactory ()] *)
Definition resizeFactory (opts : gmap string JS.value) : JS.value :=
  let resize := get opts "resize" in
  let geometry := geometryFactory opts in
  if negb (JS.truthy resize) || negb (JS.truthy (JS.Str geometry))
  then JS.Str ""
  else JS.or (resizeMap_get geometry resize)
             (resizeMap_get geometry (JS.Str RESIZE_DEFAULT)).

(** One turn of the attribute loop of [getArgs]: the tokens pushed on
    [args] for [attribute]. *)
Definition pushAttribute (opts : gmap string JS.value)
    (args : list string) (attribute : string) : list string :=
  let value := get opts attribute in
  if JS.truthy value || JS.is_zero value then
    let args := args ++ ["-" +:+ JS.strip_trailing_digits attribute] in
    if negb (JS.is_boolean value)
    then args ++ [JS.to_string value]
    else args
  else args.

(** [getArgs (origin, result)] *)
Definition getArgs (opts : gmap string JS.value) (origin result : string)
  : list string :=
  let args := [] in
  let resize := resizeFactory opts in
  let args := args ++ [origin] in
  let args := fold_left (pushAttribute opts) attributesMap args in
  let args :=
    if JS.truthy resize then args ++ [JS.to_string resize] else args in
  let args := args ++ [result] in
  args.

(** The argument list that [proceed] and [pipe] hand to [spawn]. *)
Definition commandArgs (opts : gmap string JS.value) : list string :=
  let origin := getHandle (get opts "srcFormat") JS.Undefined in
  let result := getHandle (get opts "format") JS.Undefined in
  getArgs opts origin result.

(** The tokens of the attribute loop alone, for the attributes [attrs]. *)
Definition flagTokens (opts : gmap string JS.value) (attrs : list string)
  : list string :=
  fold_left (pushAttribute opts) attrs [].

(** The tokens one attribute contributes, read off its value. *)
Definition flagOf (attribute : string) (value : JS.value) : list string :=
  if JS.truthy value || JS.is_zero value then
    ("-" +:+ JS.strip_trailing_digits attribute)
      :: (if negb (JS.is_boolean value) then [JS.to_string value] else [])
  else [].

(** The resize clause as [getArgs] pushes it: one token, or none. *)
Definition resizeTokens (opts : gmap string JS.value) : list string :=
  if JS.truthy (resizeFactory opts)
  then [JS.to_string (resizeFactory opts)]
  else [].

(** An option that is absent: the key is missing ([undefined]) or the
    value is [null], the default of the optional fields. *)
Definition absent (v : JS.value) : Prop := v = JS.Undefined \/ v = JS.Null.

(** The option names the command builder reads. *)
Definition builderKeys : list string :=
  attributesMap ++ ["srcFormat"; "format"; "width"; "height"; "resize"].

(** ** Conversion orchestrator

    The host process is modelled by what the code touches in it: the
    subprocesses spawned so far, the listeners registered on the process
    ['exit'] event, and the [kill] calls issued.  A subprocess is named by
    its index in [spawned]. *)

Record World : Type := mkWorld {
  spawned : list (JS.value * list string);  (* [spawn(path, args)] calls *)
  exitHooks : list nat;     (* [process.on('exit', () => cp.kill())], by child *)
  kills : list nat          (* [cp.kill()] calls, by child *)
}.

Definition initialWorld : World :=
  {| spawned := []; exitHooks := []; kills := [] |}.

(** Where a rejection comes from: one constructor per [reject] or [throw]
    site of [proceed] and [pipe]. *)
Inductive Failure : Type :=
| InvalidInput (message : string)  (* the [srcData] check *)
| Caught (e : string)              (* [catch (e) { reject(e) }] *)
| ProcessError (text : string)     (* ['error'] on [cp], [cp.stdout], [cp.stderr] *)
| EngineError (text : string)      (* ['data'] on [cp.stderr] *)
| SinkError (e : string).          (* ['error'] on the fork *)

(** The state of the promise a conversion returns. *)
Inductive Settlement : Type :=
| Pending
| Resolved (result : option (list Byte.byte))  (* [None]: [resolve()] of [pipe] *)
| Rejected (failure : Failure).

(** A promise settles once: later [resolve] and [reject] calls are ignored. *)
Definition settle (now : Settlement) (next : Settlement) : Settlement :=
  match now with
  | Pending => next
  | _ => now
  end.

Definition settled (p : Settlement) : bool :=
  match p with
  | Pending => false
  | _ => true
  end.

(** The argument of [pipe]: one stream or an array of streams. *)
Inductive Streams : Type :=
| OneStream (s : nat)
| StreamArray (l : list nat).

(** [Array.isArray(streams) ? streams : [streams]] *)
Definition streamList (streams : Streams) : list nat :=
  match streams with
  | OneStream s => [s]
  | StreamArray l => l
  end.

(** One conversion: the promise, the subprocess when one was spawned, and
    what the handlers of the run have gathered. *)
Record Run : Type := mkRun {
  promise : Settlement;
  child : option nat;
  sinks : option (list nat);        (* the fork's streams, for [pipe] *)
  stdin : option (list Byte.byte);  (* [cp.stdin.end(source)] *)
  store : list (list Byte.byte);    (* [store], for [proceed] *)
  forwarded : list (list Byte.byte) (* chunks piped into the fork *)
}.

Definition srcDataMessage : string :=
  "imagemagick-convert: the field `srcData` is required and should have `Buffer` type".

(** A run that was rejected before anything was started. *)
Definition rejectedRun (f : Failure) : Run :=
  {| promise := Rejected f; child := None; sinks := None; stdin := None;
     store := []; forwarded := [] |}.

Definition bufferBytes (v : JS.value) : list Byte.byte :=
  match v with
  | JS.Buffer bytes => bytes
  | _ => []
  end.

(** What a subprocess and the fork can emit towards a run. *)
Inductive Event : Type :=
| ChildError (text : string)
| StdoutError (text : string)
| StderrError (text : string)
| StdoutData (chunk : list Byte.byte)
| StdoutEnd
| StderrData (text : string)
| ForkFinish
| ForkError (e : string).

Definition withPromise (r : Run) (p : Settlement) : Run :=
  {| promise := p; child := child r; sinks := sinks r; stdin := stdin r;
     store := store r; forwarded := forwarded r |}.

(** The listeners that [proceed] (no fork) and [pipe] (a fork) install. *)
Definition handle (r : Run) (ev : Event) : Run :=
  match ev with
  | ChildError text | StdoutError text | StderrError text =>
      withPromise r (settle (promise r) (Rejected (ProcessError text)))
  | StderrData text =>
      withPromise r (settle (promise r) (Rejected (EngineError text)))
  | StdoutData chunk =>
      match sinks r with
      | None =>
          {| promise := promise r; child := child r; sinks := sinks r;
             stdin := stdin r; store := store r ++ [chunk];
             forwarded := forwarded r |}
      | Some _ =>
          {| promise := promise r; child := child r; sinks := sinks r;
             stdin := stdin r; store := store r;
             forwarded := forwarded r ++ [chunk] |}
      end
  | StdoutEnd =>
      match sinks r with
      | None =>
          withPromise r
            (settle (promise r) (Resolved (Some (List.concat (store r)))))
      | Some _ => r
      end
  | ForkFinish =>
      match sinks r with
      | None => r
      | Some _ => withPromise r (settle (promise r) (Resolved None))
      end
  | ForkError e =>
      match sinks r with
      | None => r
      | Some _ => withPromise r (settle (promise r) (Rejected (SinkError e)))
      end
  end.

(** The host process emits ['exit']: every registered listener runs. *)
Definition hostExit (w : World) : World :=
  {| spawned := spawned w; exitHooks := exitHooks w;
     kills := kills w ++ exitHooks w |}.

(** The run and the host once the [try] block of [proceed] or [pipe] has
    run to its end: the subprocess exists, the listeners are installed, the
    source is written to its input and the exit listener is registered. *)
Definition started (opts : gmap string JS.value) (fork : option (list nat))
    (w : World) : Run * World :=
  let cp := length (spawned w) in
  ({| promise := Pending; child := Some cp; sinks := fork;
      stdin := Some (bufferBytes (get opts "srcData"));
      store := []; forwarded := [] |},
   {| spawned := spawned w ++ [(get opts "path", commandArgs opts)];
      exitHooks := exitHooks w ++ [cp];
      kills := kills w |}).

(** The run and the host when [new Fork(streamList)] throws in [pipe]: the
    subprocess has been spawned and its three ['error'] listeners are
    installed, the [catch] rejects with what was thrown, and the statements
    after the constructor are not run: no listener for the data of either
    stream, no exit listener, no write to the input. *)
Definition forkFailed (opts : gmap string JS.value) (e : string) (w : World)
  : Run * World :=
  let cp := length (spawned w) in
  ({| promise := Rejected (Caught e); child := Some cp; sinks := None;
      stdin := None; store := []; forwarded := [] |},
   {| spawned := spawned w ++ [(get opts "path", commandArgs opts)];
      exitHooks := exitHooks w;
      kills := kills w |}).

Section Orchestrator.

(** The operating system's [spawn] is outside the repository.  All the
    code depends on is whether the call throws ([Some e]) or hands back a
    subprocess ([None]). *)
Variable spawnThrows : JS.value -> list string -> option string.

(** The constructor of the [stream-fork] package is outside the repository
    too: it throws ([Some e]) or builds the fork ([None]). *)
Variable forkThrows : list nat -> option string.

(** [proceed ()] *)
Definition proceed (opts : gmap string JS.value) (w : World) : Run * World :=
  let source := get opts "srcData" in
  if JS.truthy source && JS.is_buffer source
  then
    let args := commandArgs opts in
    match spawnThrows (get opts "path") args with
    | Some e => (rejectedRun (Caught e), w)
    | None => started opts None w
    end
  else (rejectedRun (InvalidInput srcDataMessage), w).

(** [pipe (streams)] *)
Definition pipe (opts : gmap string JS.value) (streams : Streams) (w : World)
  : Run * World :=
  let streamList := streamList streams in
  let source := get opts "srcData" in
  if negb (JS.truthy source && JS.is_buffer source)
  then (rejectedRun (InvalidInput srcDataMessage), w)
  else
    let args := commandArgs opts in
    match spawnThrows (get opts "path") args with
    | Some e => (rejectedRun (Caught e), w)
    | None =>
        match forkThrows streamList with
        | Some e => forkFailed opts e w
        | None => started opts (Some streamList) w
        end
    end.

(** [convert (options)] *)
Definition convert (platform : string) (options : gmap string JS.value)
    (w : World) : Run * World :=
  let converter := Converter platform options in
  proceed converter w.

(** The life of a host process that runs conversions: calls of the two
    operations, events reaching a run, and the host's exit. *)
Inductive Action : Type :=
| CallProceed (opts : gmap string JS.value)
| CallPipe (opts : gmap string JS.value) (streams : Streams)
| Deliver (run : nat) (ev : Event)
| HostExit.

Record System : Type := mkSystem {
  world : World;
  runs : list Run
}.

Definition initialSystem : System :=
  {| world := initialWorld; runs := [] |}.

Definition step (s : System) (a : Action) : System :=
  match a with
  | CallProceed opts =>
      let '(r, w) := proceed opts (world s) in
      {| world := w; runs := runs s ++ [r] |}
  | CallPipe opts streams =>
      let '(r, w) := pipe opts streams (world s) in
      {| world := w; runs := runs s ++ [r] |}
  | Deliver i ev =>
      match runs s !! i with
      | Some r =>
          match child r, stdin r with
          | Some _, Some _ =>
              {| world := world s; runs := <[i := handle r ev]> (runs s) |}
          | _, _ =>
              (* nothing was spawned, or the fork failed: no listener of the
                 run is left that does more than reject a promise which is
                 rejected already *)
              s
          end
      | None => s
      end
  | HostExit => {| world := hostExit (world s); runs := runs s |}
  end.

Definition exec (s : System) (acts : list Action) : System :=
  fold_left step acts s.

End Orchestrator.

(** The exit listeners and the [kill] calls name subprocesses that exist. *)
Definition bounded (w : World) : Prop :=
  forall cp, In cp (exitHooks w ++ kills w) -> (cp < length (spawned w))%nat.

(** Run [i] is [r], its subprocess [cp] was spawned as [call], and the
    host has neither an exit listener for it nor a [kill] call on it. *)
Definition unattended (cp i : nat) (r : Run) (call : JS.value * list string)
    (s : System) : Prop :=
  runs s !! i = Some r
  /\ spawned (world s) !! cp = Some call
  /\ ~ In cp (exitHooks (world s))
  /\ ~ In cp (kills (world s)).

(** ** Helpers for stating properties *)

(** The last character of [s] is a decimal digit. *)
Fixpoint endsInDigit (s : string) : bool :=
  match s with
  | EmptyString => false
  | String c EmptyString => JS.is_digit c
  | String _ r => endsInDigit r
  end.

(** The attribute is switched off: its value fails the test
    [value || value === 0] of the attribute loop. *)
Definition switchedOff (v : JS.value) : bool :=
  negb (JS.truthy v || JS.is_zero v).

(** No action of [acts] is the exit of the host. *)
Definition noHostExit (acts : list Action) : bool :=
  forallb (fun a => match a with HostExit => false | _ => true end) acts.

(** ** The second variant of the file

    The text after the first [module.exports]: the same converter without
    the [path] and [strip] options.  [resizeFactory] and [geometryFactory]
    are the same text as in the first variant and are shared, as is the body
    of the attribute loop. *)
Module Legacy.

Definition optionsDefaults_entries : list (string * JS.value) :=
  [ ("srcData", JS.Null);
    ("srcFormat", JS.Null);
    ("width", JS.Null);
    ("height", JS.Null);
    ("resize", JS.Str RESIZE_DEFAULT);
    ("density", JS.Num 600);
    ("background", JS.Str "none");
    ("gravity", JS.Str "Center");
    ("format", JS.Null);
    ("quality", JS.Num 75);
    ("blur", JS.Null);
    ("rotate", JS.Null);
    ("flip", JS.Bool false);
    ("alpha", JS.Null);
    ("clip", JS.Null);
    ("alpha2", JS.Null) ].

Definition optionsDefaults : gmap string JS.value :=
  list_to_map optionsDefaults_entries.

Definition attributesMap : list string :=
  [ "density"; "background"; "gravity"; "quality"; "blur"; "rotate";
    "flip"; "alpha"; "clip"; "alpha2" ].

(** [new Converter(options)] *)
Definition Converter (options : gmap string JS.value) : gmap string JS.value :=
  options ∪ optionsDefaults.

(** [createOccurrence (format = null, name = null)] *)
Definition createOccurrence (format name : JS.value) : string :=
  let format := JS.param JS.Null format in
  let name := JS.param JS.Null name in
  let occurrence := [] in
  let occurrence :=
    if JS.truthy format then occurrence ++ [format] else occurrence in
  let occurrence := occurrence ++ [JS.or name (JS.Str "-")] in
  JS.join ":" occurrence.

(** [composeCommand (origin, result)] *)
Definition composeCommand (opts : gmap string JS.value)
    (origin result : string) : list string :=
  let cmd := [] in
  let resize := resizeFactory opts in
  let cmd := cmd ++ [origin] in
  let cmd := fold_left (pushAttribute opts) attributesMap cmd in
  let cmd :=
    if JS.truthy resize then cmd ++ [JS.to_string resize] else cmd in
  let cmd := cmd ++ [result] in
  cmd.

(** The command that [proceed] and [pipe] hand to [spawn]. *)
Definition command (opts : gmap string JS.value) : list string :=
  let origin := createOccurrence (get opts "srcFormat") JS.Undefined in
  let result := createOccurrence (get opts "format") JS.Undefined in
  composeCommand opts origin result.

(** As [started] above, with the executable of the platform. *)
Definition started (platform : string) (opts : gmap string JS.value)
    (fork : option (list nat)) (w : World) : Run * World :=
  let cp := length (spawned w) in
  ({| promise := Pending; child := Some cp; sinks := fork;
      stdin := Some (bufferBytes (get opts "srcData"));
      store := []; forwarded := [] |},
   {| spawned := spawned w ++ [(JS.Str (rootCmd platform), command opts)];
      exitHooks := exitHooks w ++ [cp];
      kills := kills w |}).

(** As [forkFailed] above, with the executable of the platform. *)
Definition forkFailed (platform : string) (opts : gmap string JS.value)
    (e : string) (w : World) : Run * World :=
  let cp := length (spawned w) in
  ({| promise := Rejected (Caught e); child := Some cp; sinks := None;
      stdin := None; store := []; forwarded := [] |},
   {| spawned := spawned w ++ [(JS.Str (rootCmd platform), command opts)];
      exitHooks := exitHooks w;
      kills := kills w |}).

Section LegacyOrchestrator.

Variable spawnThrows : JS.value -> list string -> option string.
Variable forkThrows : list nat -> option string.
Variable platform : string.

(** [proceed ()]: the executable is [rootCmd], whatever the options say. *)
Definition proceed (opts : gmap string JS.value) (w : World) : Run * World :=
  let source := get opts "srcData" in
  if JS.truthy source && JS.is_buffer source
  then
    let cmd := command opts in
    match spawnThrows (JS.Str (rootCmd platform)) cmd with
    | Some e => (rejectedRun (Caught e), w)
    | None => started platform opts None w
    end
  else (rejectedRun (InvalidInput srcDataMessage), w).

(** [pipe (streams)] *)
Definition pipe (opts : gmap string JS.value) (streams : Streams) (w : World)
  : Run * World :=
  let streamList := streamList streams in
  let source := get opts "srcData" in
  if negb (JS.truthy source && JS.is_buffer source)
  then (rejectedRun (InvalidInput srcDataMessage), w)
  else
    let cmd := command opts in
    match spawnThrows (JS.Str (rootCmd platform)) cmd with
    | Some e => (rejectedRun (Caught e), w)
    | None =>
        match forkThrows streamList with
        | Some e => forkFailed platform opts e w
        | None => started platform opts (Some streamList) w
        end
    end.

(** [convert (options)] *)
Definition convert (options : gmap string JS.value) (w : World)
  : Run * World :=
  let converter := Converter options in
  proceed converter w.

End LegacyOrchestrator.

End Legacy.

(** ** Sample configurations *)

Definition sample_crop : gmap string JS.value :=
  Converter "linux" (list_to_map [("width", JS.Num 100); ("height", JS.Num 50)]).

Definition sample_fit : gmap string JS.value :=
  Converter "linux"
    (list_to_map [("srcFormat", JS.Str "PNG"); ("format", JS.Str "JPEG");
                  ("width", JS.Num 200); ("resize", JS.Str "fit")]).

Definition sample_fill : gmap string JS.value :=
  Converter "linux"
    (list_to_map [("width", JS.Num 20); ("height", JS.Num 30);
                  ("resize", JS.Str "fill")]).

Definition sample_zero_width : gmap string JS.value :=
  Converter "linux" (list_to_map [("width", JS.Num 0)]).

Definition sample_zero_width_unset : gmap string JS.value :=
  Converter "linux" (list_to_map [("width", JS.Num 0); ("resize", JS.Null)]).

Definition sample_defaults : gmap string JS.value :=
  Converter "linux" ∅.

Definition sample_alpha : gmap string JS.value :=
  Converter "linux" (list_to_map [("alpha", JS.Num 5); ("alpha2", JS.Num 7)]).

Definition sample_flip : gmap string JS.value :=
  Converter "linux" (list_to_map [("flip", JS.Bool true)]).

Definition sample_unknown_mode : gmap string JS.value :=
  Converter "linux" (list_to_map [("width", JS.Num 64); ("resize", JS.Str "cover")]).

Definition caller_plain : gmap string JS.value :=
  list_to_map [("width", JS.Num 100); ("format", JS.Str "JPEG")].

Definition caller_noisy : gmap string JS.value :=
  list_to_map [("width", JS.Num 100); ("format", JS.Str "JPEG");
               ("verbose", JS.Bool true); ("colorspace", JS.Str "sRGB");
               ("path", JS.Str "/opt/bin/convert")].

Definition sample_source : gmap string JS.value :=
  Converter "linux"
    (list_to_map [("srcData", JS.Buffer [Byte.x89; Byte.x50; Byte.x4e; Byte.x47]);
                  ("srcFormat", JS.Str "PNG"); ("format", JS.Str "JPEG")]).

Definition sample_mistyped_source : gmap string JS.value :=
  Converter "linux" (list_to_map [("srcData", JS.Str "not bytes")]).

(** A [spawn] that never throws. *)
Definition spawnAlways : JS.value -> list string -> option string :=
  fun _ _ => None.

(** A fork constructor that never throws, and one that refuses an empty
    list of streams. *)
Definition forkAlways : list nat -> option string :=
  fun _ => None.

Definition forkNeedsStream : list nat -> option string :=
  fun l => match l with [] => Some "TypeError" | _ => None end.

(** A buffered conversion that succeeds, a buffered conversion that the
    engine's diagnostics fail, and a fan-out conversion that finishes. *)
Definition sample_session : list Action :=
  [ CallProceed sample_source;
    Deliver 0 (StdoutData [Byte.xff; Byte.xd8]);
    Deliver 0 StdoutEnd;
    CallProceed sample_source;
    Deliver 1 (StderrData "convert: improper image header");
    CallPipe sample_source (StreamArray [0; 1]%nat);
    Deliver 2 ForkFinish ].

Definition legacy_with_path : gmap string JS.value :=
  Legacy.Converter
    (list_to_map [("srcData", JS.Buffer [Byte.x89; Byte.x50; Byte.x4e; Byte.x47]);
                  ("srcFormat", JS.Str "PNG"); ("format", JS.Str "JPEG");
                  ("path", JS.Str "/opt/bin/magick")]).

(** * Properties *)

(** ** The attribute loop *)

Lemma pushAttribute_flagOf opts args attribute :
  pushAttribute opts args attribute = args ++ flagOf attribute (get opts attribute).
Proof.
  unfold pushAttribute, flagOf.
  destruct (JS.truthy _ || JS.is_zero _); [| by rewrite app_nil_r].
  destruct (negb _); [| done].
  by rewrite <- app_assoc.
Qed.

Lemma fold_pushAttribute opts attrs : forall args,
  fold_left (pushAttribute opts) attrs args
  = args ++ flat_map (fun a => flagOf a (get opts a)) attrs.
Proof.
  induction attrs as [| a attrs IH]; intros args; simpl.
  - by rewrite app_nil_r.
  - rewrite IH, pushAttribute_flagOf. by rewrite <- app_assoc.
Qed.

Lemma flagTokens_flat_map opts attrs :
  flagTokens opts attrs = flat_map (fun a => flagOf a (get opts a)) attrs.
Proof. unfold flagTokens. by rewrite fold_pushAttribute. Qed.

Lemma flagTokens_app opts l1 l2 :
  flagTokens opts (l1 ++ l2) = flagTokens opts l1 ++ flagTokens opts l2.
Proof. rewrite !flagTokens_flat_map. apply flat_map_app. Qed.

Lemma flagTokens_cons opts a l :
  flagTokens opts (a :: l) = flagOf a (get opts a) ++ flagTokens opts l.
Proof. by rewrite !flagTokens_flat_map. Qed.

Lemma flagTokens_agree o1 o2 attrs :
  (forall k, In k attrs -> get o1 k = get o2 k) ->
  flagTokens o1 attrs = flagTokens o2 attrs.
Proof.
  intros H. rewrite !flagTokens_flat_map.
  induction attrs as [| a attrs IH]; [done |]; simpl.
  rewrite (H a) by (by left). f_equal. apply IH.
  intros k Hk. apply H. by right.
Qed.

(** The shape of the argument list. *)
Lemma getArgs_shape opts origin result :
  getArgs opts origin result
  = [origin] ++ flagTokens opts attributesMap ++ resizeTokens opts ++ [result].
Proof.
  unfold getArgs, resizeTokens. rewrite fold_pushAttribute, <- flagTokens_flat_map.
  destruct (JS.truthy (resizeFactory opts)); simpl;
    by rewrite <- ?app_assoc.
Qed.

(** ** Geometry and resize clause *)

Lemma truthy_Str_nonempty s : s <> "" -> JS.truthy (JS.Str s) = true.
Proof. intros H. simpl. by destruct s. Qed.

Lemma truthy_Str_inv s : JS.truthy (JS.Str s) = true -> s <> "".
Proof. intros H ->. discriminate H. Qed.

(** With a mode that is set and a geometry that is not empty, the clause is
    the preset of the mode, or the preset of the default mode. *)
Lemma resizeFactory_set opts :
  JS.truthy (get opts "resize") = true ->
  geometryFactory opts <> "" ->
  resizeFactory opts
  = JS.or (resizeMap_get (geometryFactory opts) (get opts "resize"))
          (resizeMap_get (geometryFactory opts) (JS.Str RESIZE_DEFAULT)).
Proof.
  intros Hr Hg. unfold resizeFactory.
  by rewrite Hr, (truthy_Str_nonempty _ Hg).
Qed.

Lemma resizeFactory_unset opts :
  JS.truthy (get opts "resize") = false -> resizeFactory opts = JS.Str "".
Proof. intros Hr. unfold resizeFactory. by rewrite Hr. Qed.

Lemma resizeFactory_no_geometry opts :
  geometryFactory opts = "" -> resizeFactory opts = JS.Str "".
Proof.
  intros Hg. unfold resizeFactory. rewrite Hg. simpl.
  by rewrite orb_true_r.
Qed.

Lemma crop_preset g :
  resizeMap_get g (JS.Str RESIZE_DEFAULT)
  = JS.Str ("-resize " +:+ g +:+ "^ -crop " +:+ g +:+ "+0+0!").
Proof. reflexivity. Qed.

(** Every preset is a non-empty string, so a clause that is looked up is
    always pushed. *)
Lemma resizeFactory_set_truthy opts :
  JS.truthy (get opts "resize") = true ->
  geometryFactory opts <> "" ->
  JS.truthy (resizeFactory opts) = true.
Proof.
  intros Hr Hg. rewrite resizeFactory_set by done.
  unfold JS.or.
  destruct (JS.truthy (resizeMap_get _ (get opts "resize"))) eqn:E; [done |].
  reflexivity.
Qed.

Lemma geometry_absent_height opts :
  absent (get opts "height") ->
  geometryFactory opts
  = JS.join_item (if JS.truthy (get opts "width") || JS.is_zero (get opts "width")
                  then get opts "width" else JS.Str "").
Proof. intros [H | H]; unfold geometryFactory; by rewrite H. Qed.

(** C1.  For every configuration with resize mode [crop], width 100 and
    height 50 the resize clause is exactly
    [-resize 100x50^ -crop 100x50+0+0!]; and in general, for a geometry
    that is not empty, mode [crop] yields
    [-resize <geometry>^ -crop <geometry>+0+0!], mode [fit] yields
    [-resize <geometry>] and mode [fill] yields [-resize <geometry>!]. *)
Theorem resize_clause_by_mode (opts : gmap string JS.value) :
  (get opts "resize" = JS.Str "crop" ->
   get opts "width" = JS.Num 100 ->
   get opts "height" = JS.Num 50 ->
   resizeFactory opts = JS.Str "-resize 100x50^ -crop 100x50+0+0!")
  /\ (geometryFactory opts <> "" ->
      let geometry := geometryFactory opts in
      (get opts "resize" = JS.Str "crop" ->
       resizeFactory opts
       = JS.Str ("-resize " +:+ geometry +:+ "^ -crop " +:+ geometry +:+ "+0+0!"))
      /\ (get opts "resize" = JS.Str "fit" ->
          resizeFactory opts = JS.Str ("-resize " +:+ geometry))
      /\ (get opts "resize" = JS.Str "fill" ->
          resizeFactory opts = JS.Str ("-resize " +:+ geometry +:+ "!"))).
Proof.
  split.
  - intros Hr Hw Hh. unfold resizeFactory, geometryFactory.
    rewrite Hr, Hw, Hh. reflexivity.
  - intros Hg geometry. subst geometry.
    repeat split; intros Hr;
      (rewrite resizeFactory_set; [| by rewrite Hr | done]);
      rewrite Hr; reflexivity.
Qed.

Lemma resize_clause_by_mode_witness :
  resizeFactory sample_crop = JS.Str "-resize 100x50^ -crop 100x50+0+0!"
  /\ resizeFactory sample_fit = JS.Str "-resize 200"
  /\ resizeFactory sample_fill = JS.Str "-resize 20x30!".
Proof.
  destruct (resize_clause_by_mode sample_crop) as [Hcrop _].
  destruct (resize_clause_by_mode sample_fit) as [_ Hfit].
  destruct (resize_clause_by_mode sample_fill) as [_ Hfill].
  split; [| split].
  - apply Hcrop; reflexivity.
  - destruct Hfit as (_ & H & _); [vm_compute; discriminate |].
    rewrite H by reflexivity. reflexivity.
  - destruct Hfill as (_ & _ & H); [vm_compute; discriminate |].
    rewrite H by reflexivity. reflexivity.
Defined.

(** ** Format handles and token order *)

Lemma getHandle_tagged format :
  JS.truthy format = true ->
  getHandle format JS.Undefined = JS.to_string format +:+ ":-".
Proof.
  intros H. unfold getHandle.
  destruct format; try discriminate H; simpl in *; rewrite ?H; reflexivity.
Qed.

Lemma getHandle_untagged format :
  JS.truthy format = false -> getHandle format JS.Undefined = "-".
Proof.
  intros H. unfold getHandle.
  destruct format; simpl in *; try discriminate H; rewrite ?H; reflexivity.
Qed.

Lemma getHandle_named format name :
  JS.truthy format = true -> JS.truthy name = true ->
  getHandle format name = JS.to_string format +:+ ":" +:+ JS.to_string name.
Proof.
  intros Hf Hn. unfold getHandle, JS.or.
  assert (JS.param JS.Null format = format) as -> by (by destruct format).
  assert (JS.param JS.Null name = name) as -> by (by destruct name).
  rewrite Hf, Hn. simpl.
  destruct format; try discriminate Hf; destruct name; try discriminate Hn;
    reflexivity.
Qed.

(** C2.  The built token list is the origin handle, the attribute flag
    tokens, the resize clause when there is one, and the destination handle,
    in this order.  A handle is the format tag, a colon and the name when a
    tag is present; the name defaults to [-]; without a tag the handle is
    just [-].  Source format PNG gives [PNG:-], target format JPEG gives
    [JPEG:-]. *)
Theorem command_token_order (opts : gmap string JS.value) :
  commandArgs opts
  = [getHandle (get opts "srcFormat") JS.Undefined]
      ++ flagTokens opts attributesMap
      ++ resizeTokens opts
      ++ [getHandle (get opts "format") JS.Undefined]
  /\ (length (resizeTokens opts) <= 1)%nat
  /\ (forall format, JS.truthy format = true ->
       getHandle format JS.Undefined = JS.to_string format +:+ ":" +:+ "-")
  /\ (forall format name, JS.truthy format = true -> JS.truthy name = true ->
       getHandle format name
       = JS.to_string format +:+ ":" +:+ JS.to_string name)
  /\ (forall format, JS.truthy format = false ->
       getHandle format JS.Undefined = "-")
  /\ (get opts "srcFormat" = JS.Str "PNG" ->
       hd_error (commandArgs opts) = Some "PNG:-")
  /\ (get opts "format" = JS.Str "JPEG" ->
       last (commandArgs opts) = Some "JPEG:-").
Proof.
  assert (commandArgs opts
          = [getHandle (get opts "srcFormat") JS.Undefined]
              ++ flagTokens opts attributesMap
              ++ resizeTokens opts
              ++ [getHandle (get opts "format") JS.Undefined]) as Hshape
    by apply getArgs_shape.
  split; [exact Hshape |].
  split; [unfold resizeTokens; destruct (JS.truthy _); simpl; lia |].
  split; [exact getHandle_tagged |].
  split; [exact getHandle_named |].
  split; [exact getHandle_untagged |].
  split; intros H; rewrite Hshape, H.
  - reflexivity.
  - rewrite !app_assoc. apply last_snoc.
Qed.

Lemma command_token_order_witness :
  commandArgs sample_fit
  = ["PNG:-"; "-density"; "600"; "-background"; "none"; "-gravity"; "Center";
     "-quality"; "75"; "-strip"; "-resize 200"; "JPEG:-"]
  /\ getHandle (JS.Str "PNG") JS.Undefined = "PNG:-"
  /\ getHandle (JS.Str "PNG") (JS.Str "in.png") = "PNG:in.png"
  /\ getHandle JS.Null JS.Undefined = "-"
  /\ hd_error (commandArgs sample_fit) = Some "PNG:-"
  /\ last (commandArgs sample_fit) = Some "JPEG:-".
Proof.
  destruct (command_token_order sample_fit)
    as (Hshape & _ & Htag & Hname & Hnone & Hsrc & Hdst).
  split; [rewrite Hshape; reflexivity |].
  split; [apply (Htag (JS.Str "PNG")); reflexivity |].
  split; [apply (Hname (JS.Str "PNG") (JS.Str "in.png")); reflexivity |].
  split; [apply (Hnone JS.Null); reflexivity |].
  split; [apply Hsrc; reflexivity | apply Hdst; reflexivity].
Defined.

(** ** Width zero and width absent *)

(** C3 as the specification states it does not hold when the resize mode
    is unset: with width 0 and no height the geometry is ["0"], but
    [resize: null] suppresses the clause. *)
Lemma zero_width_unset_mode_no_clause :
  get sample_zero_width_unset "width" = JS.Num 0
  /\ absent (get sample_zero_width_unset "height")
  /\ geometryFactory sample_zero_width_unset = "0"
  /\ resizeFactory sample_zero_width_unset = JS.Str ""
  /\ commandArgs sample_zero_width_unset
     = ["-"; "-density"; "600"; "-background"; "none"; "-gravity"; "Center";
        "-quality"; "75"; "-strip"; "-"].
Proof.
  split; [reflexivity |].
  split; [right; reflexivity |].
  split; [reflexivity |].
  split; reflexivity.
Qed.

(** C3, amended.  With width the number 0 and height absent the geometry
    is ["0"], and a resize clause is emitted whenever the resize mode is
    set; with the default mode [crop] it is [-resize 0^ -crop 0+0+0!].
    With width and height both absent the geometry is empty and no resize
    clause is emitted at all. *)
Theorem zero_width_geometry (opts : gmap string JS.value) :
  (get opts "width" = JS.Num 0 -> absent (get opts "height") ->
   geometryFactory opts = "0"
   /\ (JS.truthy (get opts "resize") = true ->
       JS.truthy (resizeFactory opts) = true
       /\ resizeTokens opts = [JS.to_string (resizeFactory opts)])
   /\ (get opts "resize" = JS.Str "crop" ->
       resizeFactory opts = JS.Str "-resize 0^ -crop 0+0+0!"))
  /\ (absent (get opts "width") -> absent (get opts "height") ->
      geometryFactory opts = ""
      /\ resizeFactory opts = JS.Str ""
      /\ resizeTokens opts = []).
Proof.
  split.
  - intros Hw Hh.
    assert (geometryFactory opts = "0") as Hg
      by (rewrite geometry_absent_height by done; by rewrite Hw).
    split; [exact Hg |]. split.
    + intros Hr.
      assert (JS.truthy (resizeFactory opts) = true) as Ht
        by (apply resizeFactory_set_truthy; [done | by rewrite Hg]).
      split; [exact Ht |]. unfold resizeTokens. by rewrite Ht.
    + intros Hr. rewrite resizeFactory_set; [| by rewrite Hr | by rewrite Hg].
      rewrite Hr, Hg. reflexivity.
  - intros Hw Hh.
    assert (geometryFactory opts = "") as Hg
      by (rewrite geometry_absent_height by done; by destruct Hw as [-> | ->]).
    split; [exact Hg |].
    assert (resizeFactory opts = JS.Str "") as Hc
      by (by apply resizeFactory_no_geometry).
    split; [exact Hc |]. unfold resizeTokens. by rewrite Hc.
Qed.

Lemma zero_width_geometry_witness :
  geometryFactory sample_zero_width = "0"
  /\ resizeFactory sample_zero_width = JS.Str "-resize 0^ -crop 0+0+0!"
  /\ resizeTokens sample_zero_width = ["-resize 0^ -crop 0+0+0!"]
  /\ geometryFactory sample_defaults = ""
  /\ resizeTokens sample_defaults = [].
Proof.
  destruct (zero_width_geometry sample_zero_width) as [Hzero _].
  destruct (zero_width_geometry sample_defaults) as [_ Hnone].
  destruct Hzero as (Hg & Hset & Hcrop); [reflexivity | right; reflexivity |].
  destruct Hnone as (Hg' & _ & Ht'); [right; reflexivity | right; reflexivity |].
  destruct Hset as [_ Ht]; [reflexivity |].
  split; [exact Hg |].
  split; [apply Hcrop; reflexivity |].
  split; [rewrite Ht; reflexivity |].
  split; [exact Hg' | exact Ht'].
Defined.

(** ** Attribute flags *)

Lemma flagOf_absent attribute v : absent v -> flagOf attribute v = [].
Proof. by intros [-> | ->]. Qed.

(** C4.  With [alpha = 5] and [alpha2 = 7] both present, the flag list
    holds [-alpha 5] and [-alpha 7]: the trailing digit of [alpha2] is
    stripped from the flag name, each key contributes its own pair in the
    order of the attribute set, and neither value replaces the other.  The
    only tokens that can stand between the two pairs are those of [clip]. *)
Theorem alpha_pair_both_serialized (opts : gmap string JS.value) :
  get opts "alpha" = JS.Num 5 ->
  get opts "alpha2" = JS.Num 7 ->
  JS.strip_trailing_digits "alpha2" = "alpha"
  /\ flagTokens opts attributesMap
     = flagTokens opts ["density"; "background"; "gravity"; "quality";
                        "blur"; "rotate"; "flip"]
         ++ ["-alpha"; "5"]
         ++ flagTokens opts ["clip"]
         ++ ["-alpha"; "7"]
         ++ flagTokens opts ["strip"]
  /\ (absent (get opts "clip") ->
      exists before after,
        flagTokens opts attributesMap
        = before ++ ["-alpha"; "5"; "-alpha"; "7"] ++ after).
Proof.
  intros Ha Ha2.
  assert (flagTokens opts attributesMap
          = flagTokens opts ["density"; "background"; "gravity"; "quality";
                             "blur"; "rotate"; "flip"]
              ++ ["-alpha"; "5"]
              ++ flagTokens opts ["clip"]
              ++ ["-alpha"; "7"]
              ++ flagTokens opts ["strip"]) as Hall.
  { change attributesMap
      with (["density"; "background"; "gravity"; "quality"; "blur"; "rotate";
             "flip"] ++ ["alpha"] ++ ["clip"] ++ ["alpha2"] ++ ["strip"]).
    rewrite !flagTokens_app.
    rewrite (flagTokens_cons opts "alpha" []), (flagTokens_cons opts "alpha2" []).
    rewrite Ha, Ha2. reflexivity. }
  split; [reflexivity |]. split; [exact Hall |].
  intros Hclip. eexists _, _. rewrite Hall.
  rewrite (flagTokens_cons opts "clip" []), (flagOf_absent _ _ Hclip).
  reflexivity.
Qed.

Lemma alpha_pair_both_serialized_witness :
  flagTokens sample_alpha attributesMap
  = ["-density"; "600"; "-background"; "none"; "-gravity"; "Center";
     "-quality"; "75"; "-alpha"; "5"; "-alpha"; "7"; "-strip"].
Proof.
  destruct (alpha_pair_both_serialized sample_alpha) as (_ & H & _);
    [reflexivity | reflexivity |].
  rewrite H. reflexivity.
Defined.

(** C5.  With [flip = true] the flag list holds the token [-flip] and no
    value token for it: the next token belongs to the next attribute.  With
    [flip = false] or [flip] absent (in the resolved configuration, or left
    out by the caller so that the default [false] applies) the attribute
    contributes no token. *)
Theorem flip_flag_only (opts : gmap string JS.value) :
  (get opts "flip" = JS.Bool true ->
   flagOf "flip" (get opts "flip") = ["-flip"]
   /\ flagTokens opts attributesMap
      = flagTokens opts ["density"; "background"; "gravity"; "quality";
                         "blur"; "rotate"]
          ++ ["-flip"]
          ++ flagTokens opts ["alpha"; "clip"; "alpha2"; "strip"])
  /\ (get opts "flip" = JS.Bool false \/ absent (get opts "flip") ->
      flagOf "flip" (get opts "flip") = []
      /\ flagTokens opts attributesMap
         = flagTokens opts ["density"; "background"; "gravity"; "quality";
                            "blur"; "rotate"]
             ++ flagTokens opts ["alpha"; "clip"; "alpha2"; "strip"])
  /\ (forall platform options,
        opts = Converter platform options -> options !! "flip" = None ->
        get opts "flip" = JS.Bool false).
Proof.
  assert (flagTokens opts attributesMap
          = flagTokens opts ["density"; "background"; "gravity"; "quality";
                             "blur"; "rotate"]
              ++ flagOf "flip" (get opts "flip")
              ++ flagTokens opts ["alpha"; "clip"; "alpha2"; "strip"]) as Hall.
  { change attributesMap
      with (["density"; "background"; "gravity"; "quality"; "blur"; "rotate"]
              ++ ["flip"] ++ ["alpha"; "clip"; "alpha2"; "strip"]).
    rewrite !flagTokens_app. rewrite (flagTokens_cons opts "flip" []).
    by rewrite app_nil_r. }
  split; [| split].
  - intros H. rewrite Hall, H. split; reflexivity.
  - intros H. rewrite Hall.
    assert (flagOf "flip" (get opts "flip") = []) as ->
      by (destruct H as [-> | H]; [reflexivity | by apply flagOf_absent]).
    split; reflexivity.
  - intros platform options -> Hnone. unfold get, Converter.
    rewrite lookup_union_r by done. reflexivity.
Qed.

Lemma flip_flag_only_witness :
  flagTokens sample_flip attributesMap
  = ["-density"; "600"; "-background"; "none"; "-gravity"; "Center";
     "-quality"; "75"; "-flip"; "-strip"]
  /\ flagTokens sample_defaults attributesMap
     = ["-density"; "600"; "-background"; "none"; "-gravity"; "Center";
        "-quality"; "75"; "-strip"].
Proof.
  destruct (flip_flag_only sample_flip) as (Hon & _ & _).
  destruct (flip_flag_only sample_defaults) as (_ & Hoff & Hdef).
  destruct Hon as [_ Hon]; [reflexivity |].
  destruct Hoff as [_ Hoff];
    [left; apply (Hdef "linux" ∅); reflexivity |].
  split; [rewrite Hon | rewrite Hoff]; reflexivity.
Defined.

(** ** Fallback of the resize mode *)

Lemma resizeMap_get_miss g v :
  v <> JS.Str "fit" -> v <> JS.Str "fill" -> v <> JS.Str "crop" ->
  resizeMap_get g v = JS.Undefined.
Proof.
  intros Hfit Hfill Hcrop. destruct v as [| | | | k | | | |]; try reflexivity.
  unfold resizeMap_get, resizeMap. cbn [List.find fst snd].
  destruct (String.eqb_spec "fit" k) as [<- | _]; [done |].
  destruct (String.eqb_spec "fill" k) as [<- | _]; [done |].
  destruct (String.eqb_spec "crop" k) as [<- | _]; [done |].
  reflexivity.
Qed.

Lemma get_insert_ne (opts : gmap string JS.value) k k' v :
  k <> k' -> get (<[k := v]> opts) k' = get opts k'.
Proof. intros H. unfold get. by rewrite lookup_insert_ne. Qed.

Lemma get_insert_eq (opts : gmap string JS.value) k v :
  get (<[k := v]> opts) k = v.
Proof. unfold get. by rewrite lookup_insert_eq. Qed.

Lemma geometryFactory_insert_resize opts v :
  geometryFactory (<["resize" := v]> opts) = geometryFactory opts.
Proof. unfold geometryFactory. by rewrite !get_insert_ne. Qed.

(** C6 as the specification states it does not hold for the values of the
    resize mode that are falsy: with width 64, the modes [""], [false] and
    [0] are values other than [fit], [fill] and [crop] and the geometry is
    ["64"], but the guard [!resize] returns the empty clause, while mode
    [crop] gives [-resize 64^ -crop 64+0+0!]. *)
Lemma falsy_mode_does_not_fall_back :
  let empty := <["resize" := JS.Str ""]> sample_unknown_mode in
  let no := <["resize" := JS.Bool false]> sample_unknown_mode in
  let zero := <["resize" := JS.Num 0]> sample_unknown_mode in
  get empty "resize" = JS.Str ""
  /\ geometryFactory empty = "64"
  /\ resizeFactory empty = JS.Str ""
  /\ resizeFactory (<["resize" := JS.Str "crop"]> empty)
     = JS.Str "-resize 64^ -crop 64+0+0!"
  /\ geometryFactory no = "64"
  /\ resizeFactory no = JS.Str ""
  /\ geometryFactory zero = "64"
  /\ resizeFactory zero = JS.Str "".
Proof. repeat split; reflexivity. Qed.

(** C6, amended.  When the resize mode is truthy and other than [fit],
    [fill] and [crop], and the geometry is not empty, the resize clause is
    the one the same configuration gives with mode [crop]. *)
Theorem unknown_mode_falls_back_to_crop (opts : gmap string JS.value) :
  JS.truthy (get opts "resize") = true ->
  get opts "resize" <> JS.Str "fit" ->
  get opts "resize" <> JS.Str "fill" ->
  get opts "resize" <> JS.Str "crop" ->
  geometryFactory opts <> "" ->
  resizeFactory opts = resizeFactory (<["resize" := JS.Str "crop"]> opts)
  /\ resizeFactory opts
     = JS.Str ("-resize " +:+ geometryFactory opts +:+ "^ -crop "
               +:+ geometryFactory opts +:+ "+0+0!")
  /\ resizeTokens opts = resizeTokens (<["resize" := JS.Str "crop"]> opts).
Proof.
  intros Hset Hfit Hfill Hcrop Hg.
  assert (resizeFactory opts
          = JS.Str ("-resize " +:+ geometryFactory opts +:+ "^ -crop "
                    +:+ geometryFactory opts +:+ "+0+0!")) as Hmine.
  { rewrite resizeFactory_set by done.
    by rewrite resizeMap_get_miss. }
  assert (resizeFactory (<["resize" := JS.Str "crop"]> opts)
          = JS.Str ("-resize " +:+ geometryFactory opts +:+ "^ -crop "
                    +:+ geometryFactory opts +:+ "+0+0!")) as Hcropped.
  { rewrite resizeFactory_set;
      rewrite ?geometryFactory_insert_resize, ?get_insert_eq; done. }
  split; [by rewrite Hmine, Hcropped |].
  split; [exact Hmine |].
  unfold resizeTokens. by rewrite Hmine, Hcropped.
Qed.

Lemma unknown_mode_falls_back_to_crop_witness :
  resizeFactory sample_unknown_mode = JS.Str "-resize 64^ -crop 64+0+0!"
  /\ resizeFactory sample_unknown_mode
     = resizeFactory (<["resize" := JS.Str "crop"]> sample_unknown_mode).
Proof.
  destruct (unknown_mode_falls_back_to_crop sample_unknown_mode)
    as (Heq & Hclause & _);
    [reflexivity | vm_compute; discriminate | vm_compute; discriminate
     | vm_compute; discriminate | vm_compute; discriminate |].
  split; [rewrite Hclause; reflexivity | exact Heq].
Defined.

(** ** What the builder reads *)

Lemma commandArgs_agree o1 o2 :
  (forall k, In k builderKeys -> get o1 k = get o2 k) ->
  commandArgs o1 = commandArgs o2.
Proof.
  intros H.
  assert (forall k, In k attributesMap -> get o1 k = get o2 k) as Hattr
    by (intros k Hk; apply H; unfold builderKeys; apply in_or_app; by left).
  assert (forall k, In k ["srcFormat"; "format"; "width"; "height"; "resize"] ->
                    get o1 k = get o2 k) as Hrest
    by (intros k Hk; apply H; unfold builderKeys; apply in_or_app; by right).
  assert (geometryFactory o1 = geometryFactory o2) as Hgeo.
  { unfold geometryFactory.
    rewrite (Hrest "width"), (Hrest "height"); simpl; tauto. }
  assert (resizeFactory o1 = resizeFactory o2) as Hres.
  { unfold resizeFactory. rewrite Hgeo, (Hrest "resize"); simpl; tauto. }
  unfold commandArgs. rewrite !getArgs_shape.
  unfold resizeTokens. rewrite Hres, (flagTokens_agree o1 o2 _ Hattr).
  rewrite (Hrest "srcFormat"), (Hrest "format"); simpl; tauto.
Qed.

Lemma get_Converter platform options k :
  get (Converter platform options) k
  = match options !! k with
    | Some v => v
    | None => get (optionsDefaults platform) k
    end.
Proof.
  unfold get, Converter. destruct (options !! k) as [v |] eqn:E.
  - by rewrite (lookup_union_Some_l _ _ _ _ E).
  - by rewrite lookup_union_r.
Qed.

Lemma defaults_builderKeys p1 p2 k :
  In k builderKeys -> get (optionsDefaults p1) k = get (optionsDefaults p2) k.
Proof.
  unfold builderKeys, attributesMap. simpl.
  intros H. repeat (destruct H as [<- | H]; [reflexivity |]). destruct H.
Qed.

(** C8.  Two caller option records that agree on every key of the fixed
    attribute set and on the format ([srcFormat], [format]), [width],
    [height] and [resize] keys give the same command token list, whatever
    else they hold: option names outside this set never reach the builder's
    output. *)
Theorem unknown_options_inert (p1 p2 : string)
    (o1 o2 : gmap string JS.value) :
  (forall k, In k builderKeys -> o1 !! k = o2 !! k) ->
  commandArgs (Converter p1 o1) = commandArgs (Converter p2 o2).
Proof.
  intros H. apply commandArgs_agree. intros k Hk.
  rewrite !get_Converter, (H k Hk).
  destruct (o2 !! k); [done |]. by apply defaults_builderKeys.
Qed.

Lemma unknown_options_inert_witness :
  commandArgs (Converter "linux" caller_plain)
  = commandArgs (Converter "win32" caller_noisy).
Proof.
  apply unknown_options_inert.
  unfold builderKeys, attributesMap. simpl.
  intros k H. repeat (destruct H as [<- | H]; [reflexivity |]). destruct H.
Defined.

(** ** Defaults that always reach the command line *)

(** C10.  When the caller's record has none of [density], [background],
    [gravity] and [quality], the attribute flag tokens start with
    [-density 600 -background none -gravity Center -quality 75], and so
    does the built command after its origin handle. *)
Theorem default_flags_always_passed (platform : string)
    (options : gmap string JS.value) :
  options !! "density" = None ->
  options !! "background" = None ->
  options !! "gravity" = None ->
  options !! "quality" = None ->
  let opts := Converter platform options in
  flagTokens opts attributesMap
  = ["-density"; "600"; "-background"; "none"; "-gravity"; "Center";
     "-quality"; "75"]
      ++ flagTokens opts ["blur"; "rotate"; "flip"; "alpha"; "clip"; "alpha2";
                          "strip"]
  /\ commandArgs opts
     = [getHandle (get opts "srcFormat") JS.Undefined]
         ++ ["-density"; "600"; "-background"; "none"; "-gravity"; "Center";
             "-quality"; "75"]
         ++ flagTokens opts ["blur"; "rotate"; "flip"; "alpha"; "clip";
                             "alpha2"; "strip"]
         ++ resizeTokens opts
         ++ [getHandle (get opts "format") JS.Undefined].
Proof.
  intros Hd Hb Hg Hq opts.
  assert (flagTokens opts attributesMap
          = ["-density"; "600"; "-background"; "none"; "-gravity"; "Center";
             "-quality"; "75"]
              ++ flagTokens opts ["blur"; "rotate"; "flip"; "alpha"; "clip";
                                  "alpha2"; "strip"]) as Hflags.
  { unfold attributesMap. rewrite 4!flagTokens_cons. subst opts.
    rewrite !get_Converter, Hd, Hb, Hg, Hq. reflexivity. }
  split; [exact Hflags |].
  unfold commandArgs. rewrite getArgs_shape, Hflags.
  by rewrite <- !app_assoc.
Qed.

Lemma default_flags_always_passed_witness :
  commandArgs (Converter "linux" ∅)
  = ["-"; "-density"; "600"; "-background"; "none"; "-gravity"; "Center";
     "-quality"; "75"; "-strip"; "-"].
Proof.
  destruct (default_flags_always_passed "linux" ∅) as [_ H];
    [reflexivity | reflexivity | reflexivity | reflexivity |].
  rewrite H. reflexivity.
Defined.

(** ** The orchestrator: validation before spawning *)

Lemma not_buffer_rejected v :
  JS.is_buffer v = false -> JS.truthy v && JS.is_buffer v = false.
Proof. intros ->. apply andb_false_r. Qed.

Lemma handle_keeps_settlement r ev :
  settled (promise r) = true -> promise (handle r ev) = promise r.
Proof.
  intros H. destruct ev; simpl; destruct (sinks r); simpl;
    destruct (promise r); by try discriminate H.
Qed.

Lemma handle_keeps_child r ev : child (handle r ev) = child r.
Proof. destruct ev; simpl; by destruct (sinks r). Qed.

Lemma handles_keep_settlement evs : forall r,
  settled (promise r) = true -> promise (fold_left handle evs r) = promise r.
Proof.
  induction evs as [| ev evs IH]; intros r H; simpl; [done |].
  rewrite IH; rewrite handle_keeps_settlement; done.
Qed.

(** C7.  When the source bytes are absent or are not a [Buffer], both the
    buffered conversion and the fan-out conversion are rejected with the
    invalid-input error of the [srcData] check; the host is left as it
    was, so nothing has been spawned and no exit listener registered; the
    run has no subprocess, and no event can replace the error by one that
    comes from a subprocess.  Leaving [srcData] out of the caller's record
    is one such case. *)
Theorem invalid_source_rejected_before_spawn
    (spawnThrows : JS.value -> list string -> option string)
    (forkThrows : list nat -> option string)
    (opts : gmap string JS.value) (streams : Streams) (w : World) :
  (JS.is_buffer (get opts "srcData") = false ->
   proceed spawnThrows opts w = (rejectedRun (InvalidInput srcDataMessage), w)
   /\ pipe spawnThrows forkThrows opts streams w
      = (rejectedRun (InvalidInput srcDataMessage), w)
   /\ spawned (snd (proceed spawnThrows opts w)) = spawned w
   /\ spawned (snd (pipe spawnThrows forkThrows opts streams w)) = spawned w
   /\ child (fst (proceed spawnThrows opts w)) = None
   /\ child (fst (pipe spawnThrows forkThrows opts streams w)) = None
   /\ (forall evs,
         promise (fold_left handle evs (fst (proceed spawnThrows opts w)))
         = Rejected (InvalidInput srcDataMessage))
   /\ (forall evs,
         promise (fold_left handle evs
                    (fst (pipe spawnThrows forkThrows opts streams w)))
         = Rejected (InvalidInput srcDataMessage)))
  /\ (forall platform options,
        options !! "srcData" = None ->
        convert spawnThrows platform options w
        = (rejectedRun (InvalidInput srcDataMessage), w)).
Proof.
  split.
  - intros H.
    assert (proceed spawnThrows opts w
            = (rejectedRun (InvalidInput srcDataMessage), w)) as Hproceed
      by (unfold proceed; by rewrite (not_buffer_rejected _ H)).
    assert (pipe spawnThrows forkThrows opts streams w
            = (rejectedRun (InvalidInput srcDataMessage), w)) as Hpipe
      by (unfold pipe; by rewrite (not_buffer_rejected _ H)).
    rewrite Hproceed, Hpipe. simpl.
    repeat split; intros evs; by rewrite handles_keep_settlement.
  - intros platform options Hnone. unfold convert, proceed.
    rewrite get_Converter, Hnone. reflexivity.
Qed.

Lemma invalid_source_rejected_before_spawn_witness :
  proceed spawnAlways sample_defaults initialWorld
  = (rejectedRun (InvalidInput srcDataMessage), initialWorld)
  /\ pipe spawnAlways forkAlways sample_mistyped_source (OneStream 0)
       initialWorld
     = (rejectedRun (InvalidInput srcDataMessage), initialWorld)
  /\ length (spawned (snd (proceed spawnAlways sample_defaults initialWorld)))
     = 0%nat
  /\ convert spawnAlways "linux" ∅ initialWorld
     = (rejectedRun (InvalidInput srcDataMessage), initialWorld).
Proof.
  destruct (invalid_source_rejected_before_spawn spawnAlways forkAlways
              sample_defaults (OneStream 0) initialWorld)
    as [Habsent Hconvert].
  destruct (invalid_source_rejected_before_spawn spawnAlways forkAlways
              sample_mistyped_source (OneStream 0) initialWorld)
    as [Hmistyped _].
  destruct Habsent as (Hproceed & _ & Hcount & _); [reflexivity |].
  destruct Hmistyped as (_ & Hpipe & _); [reflexivity |].
  split; [exact Hproceed |]. split; [exact Hpipe |].
  split; [rewrite Hcount; reflexivity |].
  apply Hconvert. reflexivity.
Defined.

(** ** The orchestrator: exit listeners *)

(** C9 as the specification states it does not hold of the code: after a
    buffered conversion has resolved, another has been rejected and a
    fan-out conversion has finished, the three exit listeners are all still
    registered, and the host's exit calls [kill] on each of the three
    subprocesses. *)
Lemma exit_hooks_survive_settlement :
  let s := exec spawnAlways forkAlways initialSystem sample_session in
  map promise (runs s)
  = [ Resolved (Some [Byte.xff; Byte.xd8]);
      Rejected (EngineError "convert: improper image header");
      Resolved None ]
  /\ map child (runs s) = [Some 0; Some 1; Some 2]%nat
  /\ exitHooks (world s) = [0; 1; 2]%nat
  /\ kills (world (step spawnAlways forkAlways s HostExit)) = [0; 1; 2]%nat.
Proof. repeat split; reflexivity. Qed.

Lemma valid_source_accepted v :
  JS.is_buffer v = true -> JS.truthy v && JS.is_buffer v = true.
Proof. by destruct v. Qed.

(** One action removes no exit listener. *)
Lemma step_exit_hooks spawnThrows forkThrows s a :
  exists added,
    exitHooks (world (step spawnThrows forkThrows s a))
    = exitHooks (world s) ++ added.
Proof.
  assert (exists added : list nat,
            exitHooks (world s) = exitHooks (world s) ++ added) as Hsame
    by (exists []; by rewrite app_nil_r).
  destruct a as [opts | opts streams | i ev |]; simpl.
  - unfold proceed. destruct (JS.truthy _ && JS.is_buffer _); [| exact Hsame].
    destruct (spawnThrows _ _); [exact Hsame |]. by eexists.
  - unfold pipe. destruct (negb _); [exact Hsame |].
    destruct (spawnThrows _ _); [exact Hsame |].
    destruct (forkThrows _); [exact Hsame |]. by eexists.
  - destruct (runs s !! i) as [r |]; [| exact Hsame].
    by destruct (child r), (stdin r).
  - exact Hsame.
Qed.

Lemma exec_exit_hooks spawnThrows forkThrows acts : forall s,
  exists added,
    exitHooks (world (exec spawnThrows forkThrows s acts))
    = exitHooks (world s) ++ added.
Proof.
  induction acts as [| a acts IH]; intros s; simpl.
  - exists []. by rewrite app_nil_r.
  - destruct (IH (step spawnThrows forkThrows s a)) as (more & Hhooks).
    destruct (step_exit_hooks spawnThrows forkThrows s a) as (added & Hhooks').
    exists (added ++ more). unfold exec in *.
    by rewrite Hhooks, Hhooks', app_assoc.
Qed.

(** One action leaves every run in its place, with its subprocess, and
    with its outcome when it has one. *)
Lemma step_keeps_run spawnThrows forkThrows s a i r :
  runs s !! i = Some r ->
  exists r', runs (step spawnThrows forkThrows s a) !! i = Some r'
             /\ child r' = child r
             /\ (settled (promise r) = true -> promise r' = promise r).
Proof.
  intros Hi. destruct a as [opts | opts streams | j ev |]; simpl.
  - destruct (proceed spawnThrows opts (world s)) as [r0 w0]. simpl.
    exists r. by rewrite (lookup_app_l_Some _ _ _ _ Hi).
  - destruct (pipe spawnThrows forkThrows opts streams (world s)) as [r0 w0].
    simpl. exists r. by rewrite (lookup_app_l_Some _ _ _ _ Hi).
  - destruct (runs s !! j) as [rj |] eqn:Hj; [| by exists r].
    destruct (child rj); [| by exists r].
    destruct (stdin rj); [| by exists r]. simpl.
    destruct (decide (j = i)) as [-> | Hne].
    + rewrite Hi in Hj. injection Hj as <-.
      exists (handle r ev).
      rewrite list_lookup_insert_eq by (by eapply lookup_lt_Some).
      split; [done |]. split; [apply handle_keeps_child |].
      apply handle_keeps_settlement.
    + exists r. by rewrite list_lookup_insert_ne.
  - by exists r.
Qed.

Lemma exec_keeps_run spawnThrows forkThrows acts : forall s i r,
  runs s !! i = Some r ->
  exists r', runs (exec spawnThrows forkThrows s acts) !! i = Some r'
             /\ child r' = child r
             /\ (settled (promise r) = true -> promise r' = promise r).
Proof.
  induction acts as [| a acts IH]; intros s i r Hi; simpl.
  - by exists r.
  - destruct (step_keeps_run spawnThrows forkThrows s a i r Hi)
      as (r1 & Hi1 & Hc1 & Hp1).
    destruct (IH (step spawnThrows forkThrows s a) i r1 Hi1)
      as (r' & Hi' & Hc' & Hp').
    exists r'. split; [exact Hi' |]. split; [by rewrite Hc', Hc1 |].
    intros Hs. rewrite Hp', Hp1; [done | done |]. by rewrite Hp1.
Qed.

(** C9, amended.  The exit listener registered for a run's subprocess is
    never de-registered and never disarmed.  Whatever happens in the host
    after a state in which the listener is registered, the settlement of
    the run included, the run still has its subprocess, the listener is
    still registered, and the exit of the host calls [kill] on the
    subprocess.  No action removes a listener from the registry, so the
    listeners accumulate: a buffered conversion that has spawned leaves the
    registry larger than it found it, for good. *)
Theorem exit_hooks_accumulate
    (spawnThrows : JS.value -> list string -> option string)
    (forkThrows : list nat -> option string)
    (acts : list Action) (s : System) :
  (exists added,
     exitHooks (world (exec spawnThrows forkThrows s acts))
     = exitHooks (world s) ++ added)
  /\ (forall i r cp,
        runs s !! i = Some r ->
        child r = Some cp ->
        In cp (exitHooks (world s)) ->
        exists r',
          runs (exec spawnThrows forkThrows s acts) !! i = Some r'
          /\ child r' = Some cp
          /\ (settled (promise r) = true -> promise r' = promise r)
          /\ In cp (exitHooks (world (exec spawnThrows forkThrows s acts)))
          /\ In cp (kills (world (step spawnThrows forkThrows
                                    (exec spawnThrows forkThrows s acts)
                                    HostExit))))
  /\ (forall opts,
        JS.is_buffer (get opts "srcData") = true ->
        spawnThrows (get opts "path") (commandArgs opts) = None ->
        (length (exitHooks (world s))
         < length (exitHooks
                     (world (exec spawnThrows forkThrows
                               (step spawnThrows forkThrows s (CallProceed opts))
                               acts))))%nat).
Proof.
  split; [apply exec_exit_hooks |]. split.
  - intros i r cp Hi Hc Hin.
    destruct (exec_keeps_run spawnThrows forkThrows acts s i r Hi)
      as (r' & Hi' & Hc' & Hp').
    destruct (exec_exit_hooks spawnThrows forkThrows acts s) as (added & Hadded).
    assert (In cp (exitHooks (world (exec spawnThrows forkThrows s acts))))
      as Hkept by (rewrite Hadded; apply in_or_app; by left).
    exists r'. split; [exact Hi' |]. split; [by rewrite Hc' |].
    split; [exact Hp' |]. split; [exact Hkept |].
    simpl. apply in_or_app. by right.
  - intros opts Hsrc Hspawn.
    destruct (exec_exit_hooks spawnThrows forkThrows acts
                (step spawnThrows forkThrows s (CallProceed opts)))
      as (added & ->).
    simpl. unfold proceed.
    rewrite (valid_source_accepted _ Hsrc). cbv zeta. rewrite Hspawn. simpl.
    rewrite !length_app. simpl. lia.
Qed.

Lemma exit_hooks_accumulate_witness :
  let s := exec spawnAlways forkAlways initialSystem [CallProceed sample_source] in
  let later := [Deliver 0 (StderrData "convert: no decode delegate");
                Deliver 0 StdoutEnd; CallProceed sample_source] in
  exists r',
    runs (exec spawnAlways forkAlways s later) !! 0%nat = Some r'
    /\ child r' = Some 0%nat
    /\ In 0%nat (exitHooks (world (exec spawnAlways forkAlways s later)))
    /\ In 0%nat
         (kills (world (step spawnAlways forkAlways
                          (exec spawnAlways forkAlways s later) HostExit)))
    /\ (0 < length (exitHooks (world s)))%nat.
Proof.
  intros s later.
  destruct (exit_hooks_accumulate spawnAlways forkAlways later s)
    as (_ & Hkept & _).
  destruct (exit_hooks_accumulate spawnAlways forkAlways [] initialSystem)
    as (_ & _ & Hgrows).
  destruct (Hkept 0%nat
              {| promise := Pending; child := Some 0%nat; sinks := None;
                 stdin := Some [Byte.x89; Byte.x50; Byte.x4e; Byte.x47];
                 store := []; forwarded := [] |}
              0%nat) as (r' & Hi & Hc & _ & Hin & Hkill);
    [reflexivity | reflexivity | left; reflexivity |].
  exists r'. split; [exact Hi |]. split; [exact Hc |].
  split; [exact Hin |]. split; [exact Hkill |].
  apply (Hgrows sample_source); reflexivity.
Defined.


(** * Further properties of the code *)

(** ** The flag name: removing trailing digits *)

Lemma append_empty_r s : s +:+ "" = s.
Proof.
  induction s as [| c r IH]; [done |].
  change (String c (r +:+ "") = String c r). by rewrite IH.
Qed.

Lemma all_digits_app p d :
  JS.all_digits (p +:+ d) = JS.all_digits p && JS.all_digits d.
Proof.
  induction p as [| c p IH]; simpl; [done |].
  rewrite IH. by rewrite andb_assoc.
Qed.

Lemma all_digits_endsInDigit p :
  p <> "" -> JS.all_digits p = true -> endsInDigit p = true.
Proof.
  induction p as [| c p IH]; intros Hne H; [done |].
  simpl in H. apply andb_true_iff in H as [Hc Hp].
  destruct p as [| c' p']; [exact Hc |].
  change (endsInDigit (String c' p') = true). by apply IH.
Qed.

Lemma strip_trailing_digits_split s :
  exists d,
    s = JS.strip_trailing_digits s +:+ d
    /\ JS.all_digits d = true
    /\ endsInDigit (JS.strip_trailing_digits s) = false.
Proof.
  induction s as [| c r (d & Hr & Hd & Hend)].
  - by exists "".
  - change (JS.strip_trailing_digits (String c r))
      with (if JS.all_digits (String c r) then ""
            else String c (JS.strip_trailing_digits r)).
    destruct (JS.all_digits (String c r)) eqn:Hall.
    + by exists (String c r).
    + exists d.
      split; [change (String c r
                      = String c (JS.strip_trailing_digits r +:+ d));
              by rewrite <- Hr |].
      split; [done |].
      destruct (JS.strip_trailing_digits r) as [| c' p'] eqn:Hs; [| exact Hend].
      change ("" +:+ d) with d in Hr. rewrite <- Hr in Hd.
      change (JS.all_digits (String c r))
        with (JS.is_digit c && JS.all_digits r) in Hall.
      rewrite Hd, andb_true_r in Hall. exact Hall.
Qed.

Lemma strip_trailing_digits_unique p : forall d,
  JS.all_digits d = true -> endsInDigit p = false ->
  JS.strip_trailing_digits (p +:+ d) = p.
Proof.
  induction p as [| c p IH]; intros d Hd Hend.
  - change ("" +:+ d) with d. destruct d as [| c' d']; [done |].
    change (JS.strip_trailing_digits (String c' d'))
      with (if JS.all_digits (String c' d') then ""
            else String c' (JS.strip_trailing_digits d')).
    by rewrite Hd.
  - change (JS.strip_trailing_digits (String c p +:+ d))
      with (if JS.all_digits (String c p +:+ d) then ""
            else String c (JS.strip_trailing_digits (p +:+ d))).
    destruct (JS.all_digits (String c p +:+ d)) eqn:Hall.
    + rewrite all_digits_app in Hall. apply andb_true_iff in Hall as [Hp _].
      rewrite all_digits_endsInDigit in Hend; done.
    + f_equal. apply IH; [done |]. by destruct p.
Qed.

(** X1.  [attribute.replace(/\d*$/, '')] removes exactly the longest run of
    decimal digits at the end of the name: the name is the result followed
    by digits only, the result does not end in a digit, the result is the
    only prefix with these two properties, and removing twice changes
    nothing more. *)
Theorem strip_trailing_digits_longest_run (s : string) :
  (exists d,
     s = JS.strip_trailing_digits s +:+ d
     /\ JS.all_digits d = true
     /\ endsInDigit (JS.strip_trailing_digits s) = false)
  /\ (forall p d,
        s = p +:+ d -> JS.all_digits d = true -> endsInDigit p = false ->
        JS.strip_trailing_digits s = p)
  /\ JS.strip_trailing_digits (JS.strip_trailing_digits s)
     = JS.strip_trailing_digits s.
Proof.
  split; [apply strip_trailing_digits_split |]. split.
  - intros p d -> Hd Hend. by apply strip_trailing_digits_unique.
  - destruct (strip_trailing_digits_split s) as (d & _ & _ & Hend).
    pose proof (strip_trailing_digits_unique (JS.strip_trailing_digits s) ""
                  eq_refl Hend) as H.
    by rewrite append_empty_r in H.
Qed.

Lemma strip_trailing_digits_longest_run_witness :
  JS.strip_trailing_digits "alpha2" = "alpha"
  /\ JS.strip_trailing_digits "x11y2020" = "x11y".
Proof.
  split.
  - apply (proj1 (proj2 (strip_trailing_digits_longest_run "alpha2"))
             "alpha" "2"); reflexivity.
  - apply (proj1 (proj2 (strip_trailing_digits_longest_run "x11y2020"))
             "x11y" "2020"); reflexivity.
Defined.

(** ** The geometry string *)

Lemma number_is_pushed n : JS.truthy (JS.Num n) || JS.is_zero (JS.Num n) = true.
Proof. simpl. by destruct (n =? 0)%Z. Qed.

Lemma dropped_dimension v :
  absent v \/ v = JS.NaN -> JS.truthy v || JS.is_zero v = false.
Proof. by intros [[-> | ->] | ->]. Qed.

(** X2.  The geometry of dimensions that are safe integers: width and
    height give [<width>x<height>] in decimal digits, a width alone gives
    [<width>], and a height alone gives [x<height>], with the number 0
    treated like any other.  A dimension that is [NaN] is dropped like one
    that is absent; when both are dropped the geometry is empty. *)
Theorem geometry_of_numbers (opts : gmap string JS.value) :
  (forall w h,
     JS.safe_integer w = true -> JS.safe_integer h = true ->
     get opts "width" = JS.Num w -> get opts "height" = JS.Num h ->
     geometryFactory opts
     = JS.to_string (JS.Num w) +:+ "x" +:+ JS.to_string (JS.Num h))
  /\ (forall w,
        JS.safe_integer w = true ->
        get opts "width" = JS.Num w ->
        absent (get opts "height") \/ get opts "height" = JS.NaN ->
        geometryFactory opts = JS.to_string (JS.Num w))
  /\ (forall h,
        JS.safe_integer h = true ->
        absent (get opts "width") \/ get opts "width" = JS.NaN ->
        get opts "height" = JS.Num h ->
        geometryFactory opts = "x" +:+ JS.to_string (JS.Num h))
  /\ (absent (get opts "width") \/ get opts "width" = JS.NaN ->
      absent (get opts "height") \/ get opts "height" = JS.NaN ->
      geometryFactory opts = "").
Proof.
  unfold geometryFactory. repeat split.
  - intros w h _ _ Hw Hh. rewrite Hw, Hh, !number_is_pushed. reflexivity.
  - intros w _ Hw Hh.
    rewrite (dropped_dimension _ Hh), Hw, number_is_pushed. reflexivity.
  - intros h _ Hw Hh.
    rewrite (dropped_dimension _ Hw), Hh, number_is_pushed. reflexivity.
  - intros Hw Hh.
    rewrite (dropped_dimension _ Hw), (dropped_dimension _ Hh). reflexivity.
Qed.

Lemma geometry_of_numbers_witness :
  geometryFactory (Converter "linux"
                     (list_to_map [("width", JS.Num 0); ("height", JS.Num 0)]))
  = "0x0"
  /\ geometryFactory (Converter "linux" (list_to_map [("width", JS.Num 640)]))
     = "640"
  /\ geometryFactory
       (Converter "linux"
          (list_to_map [("width", JS.NaN); ("height", JS.Num 48)]))
     = "x48"
  /\ geometryFactory (Converter "linux" (list_to_map [("height", JS.NaN)]))
     = "".
Proof.
  split; [| split; [| split]].
  - rewrite (proj1 (geometry_of_numbers _) 0%Z 0%Z); reflexivity.
  - rewrite (proj1 (proj2 (geometry_of_numbers _)) 640%Z);
      [reflexivity | reflexivity | reflexivity | left; right; reflexivity].
  - rewrite (proj1 (proj2 (proj2 (geometry_of_numbers _))) 48%Z);
      [reflexivity | reflexivity | right; reflexivity | reflexivity].
  - apply (proj2 (proj2 (proj2 (geometry_of_numbers _))));
      [left; right; reflexivity | right; reflexivity].
Defined.

(** ** When a resize clause is emitted *)

Lemma prefix_resize rest : String.prefix "-resize " ("-resize " +:+ rest) = true.
Proof. destruct rest; reflexivity. Qed.

Lemma resizeMap_get_cases g v :
  resizeMap_get g v = JS.Undefined
  \/ exists s, resizeMap_get g v = JS.Str s
               /\ String.prefix "-resize " s = true.
Proof.
  destruct v as [| | | | k | | | |]; try (by left).
  unfold resizeMap_get, resizeMap. cbn [List.find fst snd].
  destruct (String.eqb "fit" k);
    [right; eexists; split; [reflexivity | apply prefix_resize] |].
  destruct (String.eqb "fill" k);
    [right; eexists; split; [reflexivity | apply prefix_resize] |].
  destruct (String.eqb "crop" k);
    [right; eexists; split; [reflexivity | apply prefix_resize] |].
  by left.
Qed.

(** X3.  [resizeFactory] always returns a string: the empty string, or a
    clause that begins with [-resize ].  The clause is emitted exactly when
    the resize mode is truthy and the geometry is not empty. *)
Theorem resize_clause_emitted_iff (opts : gmap string JS.value) :
  (exists s, resizeFactory opts = JS.Str s
             /\ (s = "" \/ String.prefix "-resize " s = true))
  /\ JS.truthy (resizeFactory opts)
     = JS.truthy (get opts "resize")
       && negb (String.eqb (geometryFactory opts) "").
Proof.
  destruct (JS.truthy (get opts "resize")) eqn:Hr.
  - destruct (String.eqb_spec (geometryFactory opts) "") as [Hg | Hg].
    + rewrite resizeFactory_no_geometry by done. split; [| done].
      exists "". split; [done | by left].
    + split; [| by apply resizeFactory_set_truthy].
      rewrite resizeFactory_set by done. unfold JS.or.
      destruct (resizeMap_get_cases (geometryFactory opts) (get opts "resize"))
        as [-> | (s & -> & Hs)].
      * eexists. split; [reflexivity | right; apply prefix_resize].
      * destruct (JS.truthy (JS.Str s)).
        -- exists s. split; [done | by right].
        -- eexists. split; [reflexivity | right; apply prefix_resize].
  - rewrite resizeFactory_unset by done. split; [| done].
    exists "". split; [done | by left].
Qed.

(** ** The size of the command *)

Lemma flagOf_length a v : (length (flagOf a v) <= 2)%nat.
Proof.
  unfold flagOf. destruct (JS.truthy v || JS.is_zero v); simpl; [| lia].
  destruct (negb (JS.is_boolean v)); simpl; lia.
Qed.

Lemma flagTokens_length opts attrs :
  (length (flagTokens opts attrs) <= 2 * length attrs)%nat.
Proof.
  induction attrs as [| a attrs IH]; [done |].
  rewrite flagTokens_cons, length_app. simpl length.
  pose proof (flagOf_length a (get opts a)). lia.
Qed.

Lemma flagTokens_switched_off opts attrs :
  (forall a, In a attrs -> switchedOff (get opts a) = true) ->
  flagTokens opts attrs = [].
Proof.
  induction attrs as [| a attrs IH]; intros H; [done |].
  rewrite flagTokens_cons, IH by (intros b Hb; apply H; by right).
  specialize (H a (or_introl eq_refl)). unfold switchedOff in H.
  unfold flagOf. by destruct (JS.truthy _ || JS.is_zero _).
Qed.

(** X4.  The built command has between 2 and 25 tokens.  It has exactly
    two, the origin handle and the destination handle, when every attribute
    is switched off and the resize mode is unset. *)
Theorem command_size (opts : gmap string JS.value) :
  (2 <= length (commandArgs opts) <= 25)%nat
  /\ ((forall a, In a attributesMap -> switchedOff (get opts a) = true) ->
      JS.truthy (get opts "resize") = false ->
      commandArgs opts
      = [getHandle (get opts "srcFormat") JS.Undefined;
         getHandle (get opts "format") JS.Undefined]).
Proof.
  unfold commandArgs. rewrite getArgs_shape. split.
  - rewrite !length_app. simpl length.
    pose proof (flagTokens_length opts attributesMap) as Hflags.
    change (length attributesMap) with 11%nat in Hflags.
    assert (length (resizeTokens opts) <= 1)%nat
      by (unfold resizeTokens; destruct (JS.truthy _); simpl; lia).
    lia.
  - intros Hoff Hr. rewrite flagTokens_switched_off by done.
    unfold resizeTokens. by rewrite resizeFactory_unset.
Qed.

Lemma command_size_witness :
  commandArgs
    (Converter "linux"
       (list_to_map [("density", JS.Null); ("background", JS.Str "");
                     ("gravity", JS.Bool false); ("quality", JS.Undefined);
                     ("strip", JS.Bool false); ("resize", JS.Null);
                     ("width", JS.Num 10); ("format", JS.Str "GIF")]))
  = ["-"; "GIF:-"].
Proof.
  rewrite (proj2 (command_size _)); [reflexivity | | reflexivity].
  unfold attributesMap. simpl.
  intros a H. repeat (destruct H as [<- | H]; [reflexivity |]). destruct H.
Defined.

(** ** Zero and the other falsy values of an attribute *)

(** X5.  An attribute of the fixed set that the caller sets to the number
    0 reaches the command line as its flag followed by [0], in the
    attribute's place in the order of the set. *)
Theorem zero_valued_attribute_is_passed (platform : string)
    (options : gmap string JS.value) (a : string) :
  In a attributesMap ->
  options !! a = Some (JS.Num 0) ->
  exists before after,
    attributesMap = before ++ a :: after
    /\ commandArgs (Converter platform options)
       = [getHandle (get (Converter platform options) "srcFormat") JS.Undefined]
           ++ flagTokens (Converter platform options) before
           ++ ["-" +:+ JS.strip_trailing_digits a; "0"]
           ++ flagTokens (Converter platform options) after
           ++ resizeTokens (Converter platform options)
           ++ [getHandle (get (Converter platform options) "format")
                 JS.Undefined].
Proof.
  intros Hin Ha. destruct (in_split _ _ Hin) as (before & after & Hsplit).
  exists before, after. split; [exact Hsplit |].
  unfold commandArgs. rewrite getArgs_shape, Hsplit.
  rewrite flagTokens_app, flagTokens_cons, (get_Converter platform options a), Ha.
  by rewrite <- !app_assoc.
Qed.

Lemma zero_valued_attribute_is_passed_witness :
  let opts := Converter "linux" (list_to_map [("quality", JS.Num 0)]) in
  exists before after,
    attributesMap = before ++ "quality" :: after
    /\ commandArgs opts
       = [getHandle (get opts "srcFormat") JS.Undefined]
           ++ flagTokens opts before
           ++ ["-" +:+ JS.strip_trailing_digits "quality"; "0"]
           ++ flagTokens opts after
           ++ resizeTokens opts
           ++ [getHandle (get opts "format") JS.Undefined].
Proof.
  apply (zero_valued_attribute_is_passed "linux"
           (list_to_map [("quality", JS.Num 0)]) "quality").
  - unfold attributesMap. simpl. tauto.
  - reflexivity.
Defined.

(** X6.  An attribute of the fixed set that the caller sets to a value
    that is falsy and not the number 0 ([null], [undefined], [false], the
    empty string) contributes no token, whatever its default: the flag
    tokens are those of the other attributes. *)
Theorem falsy_override_drops_attribute (platform : string)
    (options : gmap string JS.value) (a : string) (v : JS.value) :
  In a attributesMap ->
  options !! a = Some v ->
  switchedOff v = true ->
  exists before after,
    attributesMap = before ++ a :: after
    /\ flagTokens (Converter platform options) attributesMap
       = flagTokens (Converter platform options) before
           ++ flagTokens (Converter platform options) after.
Proof.
  intros Hin Ha Hoff. destruct (in_split _ _ Hin) as (before & after & Hsplit).
  exists before, after. split; [exact Hsplit |].
  rewrite Hsplit, flagTokens_app, flagTokens_cons.
  rewrite (get_Converter platform options a), Ha.
  unfold switchedOff in Hoff. unfold flagOf.
  by destruct (JS.truthy v || JS.is_zero v).
Qed.

Lemma falsy_override_drops_attribute_witness :
  exists before after,
    attributesMap = before ++ "strip" :: after
    /\ flagTokens (Converter "linux" (list_to_map [("strip", JS.Bool false)]))
         attributesMap
       = flagTokens (Converter "linux" (list_to_map [("strip", JS.Bool false)]))
           before
           ++ flagTokens
                (Converter "linux" (list_to_map [("strip", JS.Bool false)]))
                after.
Proof.
  apply (falsy_override_drops_attribute "linux"
           (list_to_map [("strip", JS.Bool false)]) "strip" (JS.Bool false)).
  - unfold attributesMap. simpl. tauto.
  - reflexivity.
  - reflexivity.
Defined.

(** ** Starting a conversion *)

Lemma buffer_accepted bytes :
  JS.truthy (JS.Buffer bytes) && JS.is_buffer (JS.Buffer bytes) = true.
Proof. reflexivity. Qed.

Lemma bounded_initial : bounded initialWorld.
Proof. intros cp H. destruct H. Qed.

Lemma bounded_started opts fork w :
  bounded w -> bounded (snd (started opts fork w)).
Proof.
  intros Hb cp H. simpl in *. rewrite length_app. simpl.
  apply in_app_or in H as [H | H]; [apply in_app_or in H as [H | H] |].
  - specialize (Hb cp (in_or_app _ _ _ (or_introl H))). lia.
  - destruct H as [<- | []]. lia.
  - specialize (Hb cp (in_or_app _ _ _ (or_intror H))). lia.
Qed.

Lemma bounded_forkFailed opts e w :
  bounded w -> bounded (snd (forkFailed opts e w)).
Proof.
  intros Hb cp H. simpl in *. rewrite length_app. simpl.
  specialize (Hb cp H). lia.
Qed.

Lemma step_bounded spawnThrows forkThrows s a :
  bounded (world s) -> bounded (world (step spawnThrows forkThrows s a)).
Proof.
  intros Hb. destruct a as [opts | opts streams | i ev |]; simpl.
  - unfold proceed. destruct (JS.truthy _ && JS.is_buffer _); [| done].
    destruct (spawnThrows _ _); [done |].
    exact (bounded_started opts None _ Hb).
  - unfold pipe. destruct (negb _); [done |].
    destruct (spawnThrows _ _); [done |].
    destruct (forkThrows _) as [e |];
      [exact (bounded_forkFailed opts e _ Hb) |].
    exact (bounded_started opts (Some (streamList streams)) _ Hb).
  - destruct (runs s !! i) as [r |]; [| done].
    by destruct (child r), (stdin r).
  - intros cp H. simpl in *. apply Hb.
    apply in_app_or in H as [H | H]; [apply in_or_app; by left |].
    apply in_app_or in H as [H | H]; apply in_or_app; [by right | by left].
Qed.

Lemma exec_bounded spawnThrows forkThrows acts : forall s,
  bounded (world s) -> bounded (world (exec spawnThrows forkThrows s acts)).
Proof.
  induction acts as [| a acts IH]; intros s Hb; simpl; [done |].
  apply IH. by apply step_bounded.
Qed.

Lemma unattended_grow cp i r call s r0 w0 :
  unattended cp i r call s ->
  spawned w0 = spawned (world s)
  \/ (exists c, spawned w0 = spawned (world s) ++ [c]) ->
  exitHooks w0 = exitHooks (world s)
  \/ exitHooks w0 = exitHooks (world s) ++ [length (spawned (world s))] ->
  kills w0 = kills (world s) ->
  unattended cp i r call {| world := w0; runs := runs s ++ [r0] |}.
Proof.
  intros (Hi & Hcp & Hh & Hk) Hs Hhooks Hkills. unfold unattended. simpl.
  split; [by apply lookup_app_l_Some |].
  split; [destruct Hs as [-> | [c ->]]; [done | by apply lookup_app_l_Some] |].
  split; [| by rewrite Hkills].
  destruct Hhooks as [-> | ->]; [done |].
  intros H. apply in_app_or in H as [H | [<- | []]]; [done |].
  apply lookup_lt_Some in Hcp. lia.
Qed.

Lemma step_unattended spawnThrows forkThrows s a cp i r call :
  stdin r = None ->
  unattended cp i r call s ->
  unattended cp i r call (step spawnThrows forkThrows s a).
Proof.
  intros Hstdin Hu. destruct a as [opts | opts streams | j ev |]; simpl.
  - unfold proceed. destruct (JS.truthy _ && JS.is_buffer _);
      [destruct (spawnThrows _ _) |];
      apply unattended_grow; simpl; eauto.
  - unfold pipe. destruct (negb _);
      [| destruct (spawnThrows _ _); [| destruct (forkThrows _)]];
      apply unattended_grow; simpl; eauto.
  - destruct (runs s !! j) as [rj |] eqn:Hj; [| done].
    destruct (child rj); [| done]. destruct (stdin rj) eqn:Hrj; [| done].
    destruct Hu as (Hi & Hrest). split; [| exact Hrest]. simpl.
    destruct (decide (j = i)) as [-> | Hne]; [| by rewrite list_lookup_insert_ne].
    rewrite Hi in Hj. injection Hj as <-. congruence.
  - destruct Hu as (Hi & Hcp & Hh & Hk). repeat split; simpl; try done.
    intros H. apply in_app_or in H as [H | H]; done.
Qed.

Lemma exec_unattended spawnThrows forkThrows acts cp i r call : forall s,
  stdin r = None ->
  unattended cp i r call s ->
  unattended cp i r call (exec spawnThrows forkThrows s acts).
Proof.
  induction acts as [| a acts IH]; intros s Hstdin Hu; simpl; [done |].
  apply IH; [done |]. by apply step_unattended.
Qed.

Lemma reachable_bounded spawnThrows forkThrows acts :
  bounded (world (exec spawnThrows forkThrows initialSystem acts)).
Proof. apply exec_bounded, bounded_initial. Qed.

(** X7.  When the constructor of the fork throws in [pipe], the promise is
    rejected with what was thrown, but the subprocess has already been
    spawned.  It is left unattended for the rest of the host's life: its
    run never changes, no exit listener is ever registered for it, and no
    [kill] is ever called on it, not even at the exit of the host. *)
Theorem fork_failure_leaves_subprocess_unattended
    (spawnThrows : JS.value -> list string -> option string)
    (forkThrows : list nat -> option string)
    (before after : list Action)
    (opts : gmap string JS.value) (streams : Streams) (e : string) :
  JS.is_buffer (get opts "srcData") = true ->
  spawnThrows (get opts "path") (commandArgs opts) = None ->
  forkThrows (streamList streams) = Some e ->
  let s := exec spawnThrows forkThrows initialSystem before in
  let cp := length (spawned (world s)) in
  let s' := exec spawnThrows forkThrows
              (step spawnThrows forkThrows s (CallPipe opts streams)) after in
  runs s' !! length (runs s)
  = Some {| promise := Rejected (Caught e); child := Some cp; sinks := None;
            stdin := None; store := []; forwarded := [] |}
  /\ spawned (world s') !! cp = Some (get opts "path", commandArgs opts)
  /\ ~ In cp (exitHooks (world s'))
  /\ ~ In cp (kills (world s')).
Proof.
  intros Hsrc Hspawn Hfork s cp s'.
  apply (exec_unattended spawnThrows forkThrows after cp (length (runs s)));
    [reflexivity |].
  pose proof (reachable_bounded spawnThrows forkThrows before) as Hb.
  fold s in Hb. unfold unattended. simpl. unfold pipe.
  rewrite (valid_source_accepted _ Hsrc). cbv zeta. simpl negb. cbv iota.
  rewrite Hspawn, Hfork. simpl. fold cp.
  split; [by rewrite lookup_app_r, Nat.sub_diag |].
  split; [by rewrite lookup_app_r, Nat.sub_diag |].
  split; intros H.
  - specialize (Hb cp (in_or_app _ _ _ (or_introl H))). unfold cp in Hb. lia.
  - specialize (Hb cp (in_or_app _ _ _ (or_intror H))). unfold cp in Hb. lia.
Qed.

Lemma fork_failure_leaves_subprocess_unattended_witness :
  let s' := exec spawnAlways forkNeedsStream initialSystem
              ([CallProceed sample_source]
                 ++ CallPipe sample_source (StreamArray [])
                 :: [Deliver 1 (StdoutData [Byte.x00]); HostExit]) in
  runs s' !! 1%nat
  = Some {| promise := Rejected (Caught "TypeError"); child := Some 1%nat;
            sinks := None; stdin := None; store := []; forwarded := [] |}
  /\ length (spawned (world s')) = 2%nat
  /\ ~ In 1%nat (exitHooks (world s'))
  /\ ~ In 1%nat (kills (world s')).
Proof.
  destruct (fork_failure_leaves_subprocess_unattended spawnAlways
              forkNeedsStream [CallProceed sample_source]
              [Deliver 1 (StdoutData [Byte.x00]); HostExit]
              sample_source (StreamArray []) "TypeError")
    as (Hrun & _ & Hhook & Hkill); [reflexivity | reflexivity | reflexivity |].
  split; [exact Hrun |]. split; [reflexivity |].
  split; [exact Hhook | exact Hkill].
Defined.

(** X8.  [convert] on a caller record without [path] runs the executable
    of the platform: [magick] on [win32], [convert] anywhere else; a [path]
    given by the caller replaces it. *)
Theorem convert_executable
    (spawnThrows : JS.value -> list string -> option string)
    (platform : string) (options : gmap string JS.value) (w : World)
    (bytes : list Byte.byte) :
  options !! "srcData" = Some (JS.Buffer bytes) ->
  (forall path args, spawnThrows path args = None) ->
  (options !! "path" = None ->
   spawned (snd (convert spawnThrows platform options w))
   = spawned w
       ++ [(JS.Str (if String.eqb platform "win32" then "magick" else "convert"),
            commandArgs (Converter platform options))])
  /\ (forall path, options !! "path" = Some path ->
        spawned (snd (convert spawnThrows platform options w))
        = spawned w ++ [(path, commandArgs (Converter platform options))]).
Proof.
  intros Hsrc Hspawn.
  assert (get (Converter platform options) "srcData" = JS.Buffer bytes) as Hget
    by (by rewrite get_Converter, Hsrc).
  unfold convert, proceed. rewrite Hget, buffer_accepted. cbv zeta.
  rewrite Hspawn. simpl. split.
  - intros Hpath. by rewrite get_Converter, Hpath.
  - intros path Hpath. by rewrite get_Converter, Hpath.
Qed.

Lemma convert_executable_witness :
  map fst (spawned (snd (convert spawnAlways "win32"
                           (list_to_map [("srcData", JS.Buffer [Byte.x00])])
                           initialWorld)))
  = [JS.Str "magick"]
  /\ map fst (spawned (snd (convert spawnAlways "darwin"
                              (list_to_map [("srcData", JS.Buffer [Byte.x00])])
                              initialWorld)))
     = [JS.Str "convert"].
Proof.
  split.
  - destruct (convert_executable spawnAlways "win32"
                (list_to_map [("srcData", JS.Buffer [Byte.x00])]) initialWorld
                [Byte.x00]) as [-> _]; reflexivity.
  - destruct (convert_executable spawnAlways "darwin"
                (list_to_map [("srcData", JS.Buffer [Byte.x00])]) initialWorld
                [Byte.x00]) as [-> _]; reflexivity.
Defined.

(** ** Events of a run *)

Lemma data_keeps_promise chunks : forall r,
  promise (fold_left handle (map StdoutData chunks) r) = promise r.
Proof.
  induction chunks as [| c chunks IH]; intros r; simpl; [done |].
  rewrite IH. by destruct (sinks r).
Qed.

Lemma data_is_stored chunks : forall r,
  sinks r = None ->
  store (fold_left handle (map StdoutData chunks) r) = store r ++ chunks
  /\ sinks (fold_left handle (map StdoutData chunks) r) = None.
Proof.
  induction chunks as [| c chunks IH]; intros [p cp sk si st fw] Hs;
    simpl in *; subst sk.
  - by rewrite app_nil_r.
  - destruct (IH (mkRun p cp None si (st ++ [c]) fw) eq_refl) as [-> ->].
    simpl. by rewrite <- app_assoc.
Qed.

Lemma data_is_forwarded chunks : forall r l,
  sinks r = Some l ->
  forwarded (fold_left handle (map StdoutData chunks) r) = forwarded r ++ chunks
  /\ store (fold_left handle (map StdoutData chunks) r) = store r
  /\ sinks (fold_left handle (map StdoutData chunks) r) = Some l.
Proof.
  induction chunks as [| c chunks IH]; intros [p cp sk si st fw] l Hs;
    simpl in *; subst sk.
  - by rewrite app_nil_r.
  - destruct (IH (mkRun p cp (Some l) si st (fw ++ [c])) l eq_refl)
      as (-> & -> & ->).
    simpl. by rewrite <- app_assoc.
Qed.

Lemma proceed_pending spawnThrows opts w :
  promise (fst (proceed spawnThrows opts w)) = Pending ->
  sinks (fst (proceed spawnThrows opts w)) = None
  /\ store (fst (proceed spawnThrows opts w)) = [].
Proof.
  unfold proceed.
  destruct (JS.truthy _ && JS.is_buffer _); [| discriminate].
  by destruct (spawnThrows _ _).
Qed.

Lemma pipe_pending spawnThrows forkThrows opts streams w :
  promise (fst (pipe spawnThrows forkThrows opts streams w)) = Pending ->
  sinks (fst (pipe spawnThrows forkThrows opts streams w))
  = Some (streamList streams)
  /\ store (fst (pipe spawnThrows forkThrows opts streams w)) = []
  /\ forwarded (fst (pipe spawnThrows forkThrows opts streams w)) = [].
Proof.
  unfold pipe.
  destruct (negb _); [discriminate |].
  destruct (spawnThrows _ _); [discriminate |].
  by destruct (forkThrows _).
Qed.

(** X9.  A buffered conversion that was started resolves, when the output
    stream ends, with the chunks received so far concatenated in arrival
    order; nothing that happens afterwards changes the result. *)
Theorem buffered_output_in_arrival_order
    (spawnThrows : JS.value -> list string -> option string)
    (opts : gmap string JS.value) (w : World)
    (chunks : list (list Byte.byte)) (later : list Event) :
  promise (fst (proceed spawnThrows opts w)) = Pending ->
  promise (fold_left handle (map StdoutData chunks ++ StdoutEnd :: later)
             (fst (proceed spawnThrows opts w)))
  = Resolved (Some (List.concat chunks)).
Proof.
  intros Hp. destruct (proceed_pending _ _ _ Hp) as [Hsinks Hstore].
  rewrite fold_left_app. simpl fold_left at 1.
  destruct (data_is_stored chunks _ Hsinks) as [Hst Hsk].
  rewrite handles_keep_settlement;
    simpl; rewrite Hsk; simpl; rewrite data_keeps_promise, Hp; [| done].
  simpl. by rewrite Hst, Hstore.
Qed.

Lemma buffered_output_in_arrival_order_witness :
  promise (fold_left handle
             (map StdoutData [[Byte.x01]; []; [Byte.x02; Byte.x03]]
                ++ StdoutEnd :: [StderrData "late"; StdoutData [Byte.x04]])
             (fst (proceed spawnAlways sample_source initialWorld)))
  = Resolved (Some [Byte.x01; Byte.x02; Byte.x03]).
Proof.
  apply (buffered_output_in_arrival_order spawnAlways sample_source
           initialWorld [[Byte.x01]; []; [Byte.x02; Byte.x03]]).
  reflexivity.
Defined.

(** X10.  The first failure settles a pending run, in either mode and
    however many output chunks came before it: text on the diagnostic
    stream rejects with that text, and an ['error'] of the subprocess or of
    one of its two output streams rejects with its description.  Output
    that ends later does not turn the failure into a success. *)
Theorem first_failure_wins (r : Run) (chunks : list (list Byte.byte))
    (text : string) (later : list Event) :
  promise r = Pending ->
  promise (fold_left handle (map StdoutData chunks ++ StderrData text :: later) r)
  = Rejected (EngineError text)
  /\ promise (fold_left handle (map StdoutData chunks ++ ChildError text :: later) r)
     = Rejected (ProcessError text)
  /\ promise (fold_left handle (map StdoutData chunks ++ StdoutError text :: later) r)
     = Rejected (ProcessError text)
  /\ promise (fold_left handle (map StdoutData chunks ++ StderrError text :: later) r)
     = Rejected (ProcessError text).
Proof.
  intros Hp.
  repeat split; rewrite fold_left_app; simpl fold_left at 1;
    (rewrite handles_keep_settlement;
     simpl; rewrite data_keeps_promise, Hp; done).
Qed.

Lemma first_failure_wins_witness :
  promise (fold_left handle
             (map StdoutData [[Byte.xff]] ++ StderrData "warning" :: [StdoutEnd])
             (fst (proceed spawnAlways sample_source initialWorld)))
  = Rejected (EngineError "warning").
Proof.
  apply (first_failure_wins (fst (proceed spawnAlways sample_source initialWorld))
           [[Byte.xff]] "warning" [StdoutEnd]).
  reflexivity.
Defined.

(** ** Settlement is final *)

(** X11.  A run that has settled keeps its outcome and its subprocess
    through everything that follows in the host: later events for it,
    events for other runs, new conversions and the exit of the host. *)
Theorem settlement_is_final
    (spawnThrows : JS.value -> list string -> option string)
    (forkThrows : list nat -> option string)
    (acts : list Action) (s : System) (i : nat) (r : Run) :
  runs s !! i = Some r ->
  settled (promise r) = true ->
  exists r', runs (exec spawnThrows forkThrows s acts) !! i = Some r'
             /\ promise r' = promise r /\ child r' = child r.
Proof.
  intros Hi Hp.
  destruct (exec_keeps_run spawnThrows forkThrows acts s i r Hi)
    as (r' & Hi' & Hc' & Hp').
  exists r'. split; [exact Hi' |]. split; [by apply Hp' | exact Hc'].
Qed.

Lemma settlement_is_final_witness :
  exists r',
    runs (exec spawnAlways forkAlways
            (exec spawnAlways forkAlways initialSystem sample_session)
            [Deliver 1 StdoutEnd; Deliver 1 (StdoutData [Byte.x00]); HostExit])
      !! 1%nat = Some r'
    /\ promise r' = Rejected (EngineError "convert: improper image header")
    /\ child r' = Some 1%nat.
Proof.
  apply (settlement_is_final spawnAlways forkAlways
           [Deliver 1 StdoutEnd; Deliver 1 (StdoutData [Byte.x00]); HostExit]
           (exec spawnAlways forkAlways initialSystem sample_session) 1
           {| promise := Rejected (EngineError "convert: improper image header");
              child := Some 1%nat; sinks := None;
              stdin := Some [Byte.x89; Byte.x50; Byte.x4e; Byte.x47];
              store := []; forwarded := [] |});
    reflexivity.
Defined.

(** ** Fan-out *)

(** X12.  A fan-out conversion that was started forwards the output chunks
    to the fork in arrival order and keeps none of them; the end of the
    output stream does not settle it.  It resolves, without a value, when
    the fork finishes, and is rejected with the fork's error when the fork
    fails.  A single stream is treated as an array of one. *)
Theorem fan_out_settles_on_fork
    (spawnThrows : JS.value -> list string -> option string)
    (forkThrows : list nat -> option string)
    (opts : gmap string JS.value) (streams : Streams) (w : World)
    (chunks : list (list Byte.byte)) :
  (promise (fst (pipe spawnThrows forkThrows opts streams w)) = Pending ->
   let r := fold_left handle (map StdoutData chunks ++ [StdoutEnd])
              (fst (pipe spawnThrows forkThrows opts streams w)) in
   promise r = Pending
   /\ forwarded r = chunks
   /\ store r = []
   /\ promise (handle r ForkFinish) = Resolved None
   /\ (forall e, promise (handle r (ForkError e)) = Rejected (SinkError e)))
  /\ (forall stream,
        streams = OneStream stream ->
        pipe spawnThrows forkThrows opts streams w
        = pipe spawnThrows forkThrows opts (StreamArray [stream]) w).
Proof.
  split.
  - intros Hp r.
    destruct (pipe_pending _ _ _ _ _ Hp) as (Hsinks & Hstore & Hfw).
    destruct (data_is_forwarded chunks _ _ Hsinks) as (Hf & Hst & Hsk).
    assert (r = fold_left handle (map StdoutData chunks)
                  (fst (pipe spawnThrows forkThrows opts streams w))) as ->.
    { subst r. rewrite fold_left_app. simpl. by rewrite Hsk. }
    rewrite Hf, Hst, Hfw, Hstore. simpl.
    rewrite Hsk. simpl. rewrite data_keeps_promise, Hp. done.
  - by intros stream ->.
Qed.

Lemma fan_out_settles_on_fork_witness :
  let r := fold_left handle
             (map StdoutData [[Byte.x0a]; [Byte.x0b]] ++ [StdoutEnd])
             (fst (pipe spawnAlways forkAlways sample_source (OneStream 7) initialWorld)) in
  promise r = Pending
  /\ forwarded r = [[Byte.x0a]; [Byte.x0b]]
  /\ promise (handle r ForkFinish) = Resolved None.
Proof.
  destruct (fan_out_settles_on_fork spawnAlways forkAlways sample_source (OneStream 7)
              initialWorld [[Byte.x0a]; [Byte.x0b]]) as [H _].
  destruct H as (Hp & Hf & _ & Hfin & _); [reflexivity |].
  split; [exact Hp |]. split; [exact Hf | exact Hfin].
Defined.

(** ** The subprocess is killed by the host's exit only *)

Lemma step_kills spawnThrows forkThrows s a :
  kills (world (step spawnThrows forkThrows s a))
  = match a with
    | HostExit => kills (world s) ++ exitHooks (world s)
    | _ => kills (world s)
    end.
Proof.
  destruct a as [opts | opts streams | i ev |]; simpl; [| | | done].
  - unfold proceed.
    destruct (JS.truthy _ && JS.is_buffer _); [| done].
    by destruct (spawnThrows _ _).
  - unfold pipe.
    destruct (negb _); [done |].
    destruct (spawnThrows _ _); [done |].
    by destruct (forkThrows _).
  - destruct (runs s !! i) as [r |]; [| done].
    by destruct (child r), (stdin r).
Qed.

(** X13.  Nothing but the exit of the host calls [kill]: through
    conversions that start, fail, are rejected or resolve, the subprocesses
    are left alone, those of failed conversions included. *)
Theorem kill_only_at_host_exit
    (spawnThrows : JS.value -> list string -> option string)
    (forkThrows : list nat -> option string)
    (acts : list Action) (s : System) :
  noHostExit acts = true ->
  kills (world (exec spawnThrows forkThrows s acts)) = kills (world s).
Proof.
  revert s. induction acts as [| a acts IH]; intros s H; simpl; [done |].
  simpl in H. apply andb_true_iff in H as [Ha Hacts].
  rewrite IH, step_kills by done. by destruct a.
Qed.

Lemma kill_only_at_host_exit_witness :
  kills (world (exec spawnAlways forkAlways initialSystem sample_session)) = [].
Proof.
  apply (kill_only_at_host_exit spawnAlways forkAlways sample_session
           initialSystem).
  reflexivity.
Defined.

(** ** The two variants of the converter *)

Lemma get_Legacy_Converter options k :
  get (Legacy.Converter options) k
  = match options !! k with
    | Some v => v
    | None => get Legacy.optionsDefaults k
    end.
Proof.
  unfold get, Legacy.Converter. destruct (options !! k) as [v |] eqn:E.
  - by rewrite (lookup_union_Some_l _ _ _ _ E).
  - by rewrite lookup_union_r.
Qed.

Lemma variants_agree platform options k :
  In k (Legacy.attributesMap
          ++ ["srcFormat"; "format"; "width"; "height"; "resize"]) ->
  get (Converter platform options) k = get (Legacy.Converter options) k.
Proof.
  intros H. rewrite get_Converter, get_Legacy_Converter.
  destruct (options !! k); [done |].
  unfold Legacy.attributesMap in H. simpl in H.
  repeat (destruct H as [<- | H]; [reflexivity |]). destruct H.
Qed.

Lemma resizeTokens_agree o1 o2 :
  (forall k, In k ["width"; "height"; "resize"] -> get o1 k = get o2 k) ->
  resizeTokens o1 = resizeTokens o2.
Proof.
  intros H.
  assert (geometryFactory o1 = geometryFactory o2) as Hgeo.
  { unfold geometryFactory. rewrite (H "width"), (H "height"); simpl; tauto. }
  unfold resizeTokens, resizeFactory.
  rewrite Hgeo, (H "resize"); simpl; tauto.
Qed.

Lemma Legacy_command_shape opts :
  Legacy.command opts
  = [getHandle (get opts "srcFormat") JS.Undefined]
      ++ flagTokens opts Legacy.attributesMap
      ++ resizeTokens opts
      ++ [getHandle (get opts "format") JS.Undefined].
Proof.
  unfold Legacy.command, Legacy.composeCommand, resizeTokens.
  rewrite fold_pushAttribute, <- flagTokens_flat_map.
  change Legacy.createOccurrence with getHandle.
  destruct (JS.truthy (resizeFactory opts)); simpl; by rewrite <- ?app_assoc.
Qed.

(** X14.  For the same caller record the two variants build the same
    command, except that the first inserts the tokens of [strip] between
    the attribute flags and the resize clause: [-strip] when the caller
    leaves [strip] out, [-strip 0] when the caller sets it to the number 0,
    and nothing when the caller sets it to any other falsy value, in which
    case the two commands are equal. *)
Theorem variants_differ_by_strip (platform : string)
    (options : gmap string JS.value) :
  let current := Converter platform options in
  let legacy := Legacy.Converter options in
  let head := [getHandle (get legacy "srcFormat") JS.Undefined]
                ++ flagTokens legacy Legacy.attributesMap in
  let tail := resizeTokens legacy
                ++ [getHandle (get legacy "format") JS.Undefined] in
  Legacy.command legacy = head ++ tail
  /\ commandArgs current = head ++ flagTokens current ["strip"] ++ tail
  /\ (options !! "strip" = None -> commandArgs current = head ++ ["-strip"] ++ tail)
  /\ (options !! "strip" = Some (JS.Num 0) ->
      commandArgs current = head ++ ["-strip"; "0"] ++ tail)
  /\ (forall v, options !! "strip" = Some v ->
        JS.truthy v = false -> v <> JS.Num 0 ->
        commandArgs current = Legacy.command legacy).
Proof.
  intros current legacy head tail.
  assert (Legacy.command legacy = head ++ tail) as Hlegacy
    by (rewrite Legacy_command_shape; subst head tail; by rewrite <- !app_assoc).
  assert (commandArgs current = head ++ flagTokens current ["strip"] ++ tail)
    as Hcurrent.
  { unfold commandArgs. rewrite getArgs_shape.
    change attributesMap with (Legacy.attributesMap ++ ["strip"]).
    rewrite flagTokens_app. subst head tail current legacy.
    rewrite (flagTokens_agree (Converter platform options)
               (Legacy.Converter options) Legacy.attributesMap)
      by (intros k Hk; apply variants_agree, in_or_app; by left).
    rewrite (resizeTokens_agree (Converter platform options)
               (Legacy.Converter options))
      by (intros k Hk; apply variants_agree, in_or_app; right;
          simpl in *; tauto).
    rewrite !(variants_agree platform options "srcFormat"),
      !(variants_agree platform options "format")
      by (apply in_or_app; right; simpl; tauto).
    by rewrite <- !app_assoc. }
  split; [exact Hlegacy |]. split; [exact Hcurrent |].
  split; [| split].
  - intros Hnone. rewrite Hcurrent. do 2 f_equal.
    rewrite (flagTokens_cons current "strip" []). subst current.
    rewrite get_Converter, Hnone. reflexivity.
  - intros Hzero. rewrite Hcurrent. do 2 f_equal.
    rewrite (flagTokens_cons current "strip" []). subst current.
    rewrite get_Converter, Hzero. reflexivity.
  - intros v Hv Hfalsy Hne. rewrite Hcurrent, Hlegacy. f_equal.
    rewrite (flagTokens_cons current "strip" []). subst current.
    rewrite get_Converter, Hv. unfold flagOf. rewrite Hfalsy.
    assert (JS.is_zero v = false) as ->; [| done].
    destruct v as [| | | n | | | | |]; try reflexivity.
    simpl. destruct (Z.eqb_spec n 0) as [-> | _]; [done | reflexivity].
Qed.

Lemma variants_differ_by_strip_witness :
  commandArgs (Converter "linux" caller_plain)
  = ["-"; "-density"; "600"; "-background"; "none"; "-gravity"; "Center";
     "-quality"; "75"]
      ++ ["-strip"]
      ++ ["-resize 100^ -crop 100+0+0!"; "JPEG:-"]
  /\ commandArgs (Converter "linux" (<["strip" := JS.Num 0]> caller_plain))
     = ["-"; "-density"; "600"; "-background"; "none"; "-gravity"; "Center";
        "-quality"; "75"]
         ++ ["-strip"; "0"]
         ++ ["-resize 100^ -crop 100+0+0!"; "JPEG:-"]
  /\ commandArgs (Converter "linux" (<["strip" := JS.Bool false]> caller_plain))
     = Legacy.command (Legacy.Converter (<["strip" := JS.Bool false]> caller_plain)).
Proof.
  split; [| split].
  - destruct (variants_differ_by_strip "linux" caller_plain)
      as (_ & _ & H & _).
    rewrite H by reflexivity. reflexivity.
  - destruct (variants_differ_by_strip "linux"
                (<["strip" := JS.Num 0]> caller_plain))
      as (_ & _ & _ & H & _).
    rewrite H by reflexivity. reflexivity.
  - destruct (variants_differ_by_strip "linux"
                (<["strip" := JS.Bool false]> caller_plain))
      as (_ & _ & _ & _ & H).
    apply (H (JS.Bool false)); [reflexivity | reflexivity | discriminate].
Defined.

(** X15.  The second variant checks the source like the first and runs
    the executable of the platform whatever the caller's record says about
    [path]: the option is inert there. *)
Theorem legacy_ignores_path
    (spawnThrows : JS.value -> list string -> option string)
    (forkThrows : list nat -> option string)
    (platform : string) (opts : gmap string JS.value) (streams : Streams)
    (w : World) :
  (JS.is_buffer (get opts "srcData") = false ->
   Legacy.proceed spawnThrows platform opts w
   = (rejectedRun (InvalidInput srcDataMessage), w)
   /\ Legacy.pipe spawnThrows forkThrows platform opts streams w
      = (rejectedRun (InvalidInput srcDataMessage), w))
  /\ (JS.is_buffer (get opts "srcData") = true ->
      spawnThrows (JS.Str (rootCmd platform)) (Legacy.command opts) = None ->
      spawned (snd (Legacy.proceed spawnThrows platform opts w))
      = spawned w ++ [(JS.Str (rootCmd platform), Legacy.command opts)]
      /\ spawned (snd (Legacy.pipe spawnThrows forkThrows platform opts
                         streams w))
         = spawned w ++ [(JS.Str (rootCmd platform), Legacy.command opts)]).
Proof.
  unfold Legacy.proceed, Legacy.pipe. split.
  - intros H. by rewrite (not_buffer_rejected _ H).
  - intros H Hspawn. rewrite (valid_source_accepted _ H). cbv zeta.
    rewrite Hspawn. simpl. by destruct (forkThrows _).
Qed.

Lemma legacy_ignores_path_witness :
  spawned (snd (Legacy.proceed spawnAlways "linux" legacy_with_path
                  initialWorld))
  = [(JS.Str "convert",
      ["PNG:-"; "-density"; "600"; "-background"; "none"; "-gravity"; "Center";
       "-quality"; "75"; "JPEG:-"])]
  /\ Legacy.proceed spawnAlways "linux" (Legacy.Converter ∅) initialWorld
     = (rejectedRun (InvalidInput srcDataMessage), initialWorld).
Proof.
  split.
  - destruct (legacy_ignores_path spawnAlways forkAlways "linux"
                legacy_with_path (OneStream 0) initialWorld) as [_ H].
    destruct H as [-> _]; reflexivity.
  - destruct (legacy_ignores_path spawnAlways forkAlways "linux"
                (Legacy.Converter ∅) (OneStream 0) initialWorld) as [H _].
    apply H. reflexivity.
Defined.
